(** * tablestore-orm: the Table facade (src/Table.js)

    A shallow embedding of the row <-> params mapper, the write-request
    builders, the batch translator and the two pagination operations of
    [class Table], with the backend client ([this.__store]) kept as an
    abstract handler whose calls are logged.  The first part takes rows as
    plain mappings from names to values; [Module Strict], the last part,
    takes them as objects with their prototype, on which a call or an
    assignment can throw or reach the prototype, and takes the built-ins of
    the engine as parameters. *)

From Stdlib Require Import List String Ascii ZArith QArith Lia Bool Arith Sorted.
Import ListNotations.
Open Scope string_scope.
Open Scope list_scope.
Open Scope nat_scope.
#[local] Set Warnings "-register-all".

(** ** JavaScript values *)

(** A JavaScript number.  [Int z] stands for the integer-valued double [z]
    (within the safe range), [NaN] for not-a-number. *)
Inductive number : Type :=
| Int (z : Z)
| NaN.

(** Column values and what the translators build from them.  [VLong n] is the
    object [Store.Long.fromNumber(n)] of the backend SDK, kept symbolic;
    [VInfMin] and [VInfMax] are [Store.INF_MIN] and [Store.INF_MAX]. *)
Inductive value : Type :=
| VUndefined
| VNull
| VBool (b : bool)
| VNum (n : number)
| VStr (s : string)
| VLong (n : number)
| VInfMin
| VInfMax
| VObj (fields : list (string * value))
| VArr (items : list value).

(** A plain object: its own enumerable properties in [for ... in] order. *)
Definition object : Type := list (string * value).

(** The falsy values an argument can take instead of an object or array. *)
Inductive falsy : Type :=
| FUndefined | FNull | FFalse | FZero | FNaN | FEmptyString.

(** An argument of the facade: a falsy value, or a reference to an object (or
    array) of the documented shape. *)
Inductive arg (A : Type) : Type :=
| Falsy (f : falsy)
| Ref (a : A).
Arguments Falsy {A} f.
Arguments Ref {A} a.

(** [!x] *)
Definition not_ {A} (x : arg A) : bool :=
  match x with Falsy _ => true | Ref _ => false end.

(** [obj || {}] and [rows || []] *)
Definition or_empty {A} (x : arg (list A)) : list A :=
  match x with Falsy _ => [] | Ref a => a end.

Definition Long_fromNumber (n : number) : value := VLong n.

Definition is_undefined (v : value) : bool :=
  match v with VUndefined => true | _ => false end.

(** *** Objects *)

Fixpoint obj_get (o : object) (k : string) : option value :=
  match o with
  | [] => None
  | (k', v) :: o' => if String.eqb k' k then Some v else obj_get o' k
  end.

(** [obj.hasOwnProperty(key)] *)
Definition hasOwnProperty (o : object) (k : string) : bool :=
  match obj_get o k with Some _ => true | None => false end.

(** [obj[key]] *)
Definition get_prop (o : object) (k : string) : value :=
  match obj_get o k with Some v => v | None => VUndefined end.

(** [obj[key] = v]: an existing property keeps its place, a new one is added
    last. *)
Fixpoint obj_set (o : object) (k : string) (v : value) : object :=
  match o with
  | [] => [(k, v)]
  | (k', v') :: o' =>
      if String.eqb k' k then (k', v) :: o' else (k', v') :: obj_set o' k v
  end.

(** [Object.assign(row, item)] for a single-property [item = {[k]: v}]. *)
Definition assign1 (row : object) (item : string * value) : object :=
  obj_set row (fst item) (snd item).

(** [arr.push(x)] *)
Definition push {A} (arr : list A) (x : A) : list A := arr ++ [x].

(** [arr.forEach(f)] where [f] updates the variables [st] it closes over. *)
Definition forEach {A S} (arr : list A) (f : S -> A -> S) (st : S) : S :=
  fold_left f arr st.

(** *** parseInt *)

Definition is_space (c : ascii) : bool :=
  let n := nat_of_ascii c in
  ((9 <=? n) && (n <=? 13)) || (n =? 32).

Fixpoint trim_start (s : string) : string :=
  match s with
  | String c s' => if is_space c then trim_start s' else s
  | EmptyString => s
  end.

Definition digit_value (radix : Z) (c : ascii) : option Z :=
  let n := Z.of_nat (nat_of_ascii c) in
  let d :=
    if ((48 <=? n) && (n <=? 57))%Z then Some (n - 48)%Z
    else if ((97 <=? n) && (n <=? 122))%Z then Some (n - 87)%Z
    else if ((65 <=? n) && (n <=? 90))%Z then Some (n - 55)%Z
    else None in
  match d with
  | Some v => if (v <? radix)%Z then Some v else None
  | None => None
  end.

(** The longest prefix of radix digits, read as a number; [None] when the
    prefix is empty. *)
Fixpoint digits (radix : Z) (acc : option Z) (s : string) : option Z :=
  match s with
  | String c s' =>
      match digit_value radix c with
      | Some d =>
          digits radix
            (Some (radix * (match acc with Some a => a | None => 0 end) + d)%Z) s'
      | None => acc
      end
  | EmptyString => acc
  end.

(** [parseInt(s)] on a string: leading white space, a sign, a [0x] prefix,
    then digits; [NaN] when there is no digit. *)
Definition parseInt_string (s : string) : number :=
  let s := trim_start s in
  let '(sign, s) :=
    match s with
    | String "-" s' => ((-1)%Z, s')
    | String "+" s' => (1%Z, s')
    | _ => (1%Z, s)
    end in
  let '(radix, s) :=
    match s with
    | String "0" (String "x" s') => (16%Z, s')
    | String "0" (String "X" s') => (16%Z, s')
    | _ => (10%Z, s)
    end in
  match digits radix None s with
  | Some m => Int (sign * m)
  | None => NaN
  end.

(** [parseInt(value)]: the value is printed, then parsed.  An integer prints
    as its decimal numeral, a Long as the numeral of the number it was made
    from (and as [0] when it was made from [NaN]), an array as its items
    joined by commas (so the first item decides), and every other value as a
    word without a leading digit. *)
Fixpoint parseInt (v : value) : number :=
  match v with
  | VNum n => n
  | VStr s => parseInt_string s
  | VLong (Int z) => Int z
  | VLong NaN => Int 0
  | VArr (x :: _) => parseInt x
  | _ => NaN
  end.

(** *** toLocaleUpperCase, on ASCII labels *)

Definition upper_char (c : ascii) : ascii :=
  let n := nat_of_ascii c in
  if (97 <=? n) && (n <=? 122) then ascii_of_nat (n - 32) else c.

Definition lower_char (c : ascii) : ascii :=
  let n := nat_of_ascii c in
  if (65 <=? n) && (n <=? 90) then ascii_of_nat (n + 32) else c.

Fixpoint toLocaleUpperCase (s : string) : string :=
  match s with
  | String c s' => String (upper_char c) (toLocaleUpperCase s')
  | EmptyString => EmptyString
  end.

Fixpoint toLowerCase (s : string) : string :=
  match s with
  | String c s' => String (lower_char c) (toLowerCase s')
  | EmptyString => EmptyString
  end.

(** ** The table and its primary-key schema *)

(** The [type] of a primary-key descriptor: [Store.Long] itself, or anything
    else ([item.type === Store.Long] is the only test made of it). *)
Inductive KeyType : Type :=
| TLong
| TOther (label : string).

Definition is_Long (ty : KeyType) : bool :=
  match ty with TLong => true | TOther _ => false end.

Record PrimaryKeyDescriptor : Type := mkKey {
  name : string;
  type : KeyType
}.

Record Table : Type := mkTable {
  tableName : string;
  primaryKeys : list PrimaryKeyDescriptor
}.

(** ** Row to params *)

(** An array of single-property objects [{[key]: value}] is a list of
    pairs. *)
Definition columns : Type := list (string * value).

(** [__parseRowToPrimaryKey (obj, defaultValue)]; an omitted [defaultValue]
    is [VUndefined]. *)
Definition parseRowToPrimaryKey (this : Table) (obj : arg object)
    (defaultValue : value) : columns :=
  let obj := or_empty obj in
  forEach (primaryKeys this)
    (fun arr item =>
       let key := name item in
       let value := get_prop obj key in
       if hasOwnProperty obj key then
         let value :=
           if is_Long (type item) then Long_fromNumber (parseInt value)
           else value in
         push arr (key, value)
       else if negb (is_undefined defaultValue) then
         push arr (key, defaultValue)
       else arr)
    [].

(** [ignoreKeys.indexOf(key) >= 0] *)
Definition includes (keys : list string) (key : string) : bool :=
  existsb (String.eqb key) keys.

(** [__parseRowToAttributeColumns (obj)] *)
Definition parseRowToAttributeColumns (this : Table) (obj : arg object)
    : columns :=
  let ignoreKeys := map name (primaryKeys this) in
  forEach (or_empty obj)
    (fun arr kv =>
       let key := fst kv in
       if includes ignoreKeys key then arr
       else
         let value := snd kv in
         push arr (key, value))
    [].

(** [[{ PUT: putColumns }]] *)
Definition parseRowToUpdateOfAttributeColumns (this : Table) (obj : arg object)
    : columns :=
  let putColumns := parseRowToAttributeColumns this obj in
  [("PUT", VArr (map (fun kv => VObj [kv]) putColumns))].

(** ** Write requests *)

(** [Store.RowExistenceExpectation] *)
Inductive RowExistenceExpectation : Type :=
| IGNORE
| EXPECT_EXIST
| EXPECT_NOT_EXIST.

(** [new Store.Condition(expectation, null)] *)
Inductive Condition : Type :=
| mkCondition (expectation : RowExistenceExpectation).

(** [Store.ReturnType] *)
Inductive ReturnType : Type :=
| Primarykey.

(** The parameter object of a single-row write, and a batch item once
    [tableName] is deleted and [type] is set.  A field that the object does
    not have is [None]. *)
Module Params.
Record t : Type := mk {
  tableName : option string;
  condition : Condition;
  primaryKey : columns;
  updateOfAttributeColumns : option columns;
  attributeColumns : option columns;
  returnContent : option ReturnType;
  type : option string
}.

(** [item.type = tag; delete item.tableName] *)
Definition as_batch_item (tag : string) (item : t) : t :=
  {| tableName := None;
     condition := condition item;
     primaryKey := primaryKey item;
     updateOfAttributeColumns := updateOfAttributeColumns item;
     attributeColumns := attributeColumns item;
     returnContent := returnContent item;
     type := Some tag |}.
End Params.

(** [condition = condition || new Store.Condition(dflt, null)] *)
Definition condition_or (condition : option Condition)
    (dflt : RowExistenceExpectation) : Condition :=
  match condition with Some c => c | None => mkCondition dflt end.

(** [__buildPutRowParams (row, condition)] *)
Definition buildPutRowParams (this : Table) (row : arg object)
    (condition : option Condition) : Params.t :=
  let condition := condition_or condition IGNORE in
  {| Params.tableName := Some (tableName this);
     Params.condition := condition;
     Params.primaryKey := parseRowToPrimaryKey this row VUndefined;
     Params.updateOfAttributeColumns := None;
     Params.attributeColumns := Some (parseRowToAttributeColumns this row);
     Params.returnContent := Some Primarykey;
     Params.type := None |}.

(** [__buildInsertRowParams (row, condition)] *)
Definition buildInsertRowParams (this : Table) (row : arg object)
    (condition : option Condition) : Params.t :=
  let condition := condition_or condition EXPECT_NOT_EXIST in
  buildPutRowParams this row (Some condition).

(** [__buildDeleteRowParams (row, condition)] *)
Definition buildDeleteRowParams (this : Table) (row : arg object)
    (condition : option Condition) : Params.t :=
  let condition := condition_or condition IGNORE in
  {| Params.tableName := Some (tableName this);
     Params.condition := condition;
     Params.primaryKey := parseRowToPrimaryKey this row VUndefined;
     Params.updateOfAttributeColumns := None;
     Params.attributeColumns := None;
     Params.returnContent := None;
     Params.type := None |}.

(** [__buildUpdateRowParams (row, condition)] *)
Definition buildUpdateRowParams (this : Table) (row : arg object)
    (condition : option Condition) : Params.t :=
  let condition := condition_or condition EXPECT_EXIST in
  let attributeColumns := parseRowToUpdateOfAttributeColumns this row in
  {| Params.tableName := Some (tableName this);
     Params.condition := condition;
     Params.primaryKey := parseRowToPrimaryKey this row VUndefined;
     Params.updateOfAttributeColumns := Some attributeColumns;
     Params.attributeColumns := Some attributeColumns;
     Params.returnContent := Some Primarykey;
     Params.type := None |}.

(** ** The batch translator *)

(** The batch operation object: each property holds an array of rows, or a
    falsy value. *)
Definition opMap : Type := list (string * arg (list (arg object))).

(** The [switch (op)] of [__parseObjectToBatchWriteRows], for one row. *)
Definition pushBatchItem (this : Table) (op : string)
    (writeRows : list Params.t) (row : arg object) : list Params.t :=
  if String.eqb op "PUT" then
    push writeRows (Params.as_batch_item "PUT" (buildPutRowParams this row None))
  else if String.eqb op "INSERT" then
    push writeRows
      (Params.as_batch_item "PUT" (buildInsertRowParams this row None))
  else if String.eqb op "UPDATE" then
    push writeRows
      (Params.as_batch_item "UPDATE" (buildUpdateRowParams this row None))
  else if String.eqb op "DELETE" then
    push writeRows
      (Params.as_batch_item "DELETE" (buildDeleteRowParams this row None))
  else writeRows.

(** [__parseObjectToBatchWriteRows (obj)] *)
Definition parseObjectToBatchWriteRows (this : Table) (obj : opMap)
    : list Params.t :=
  forEach obj
    (fun writeRows entry =>
       let key := fst entry in
       let op := toLocaleUpperCase key in
       let rows := or_empty (snd entry) in
       if Nat.eqb (List.length rows) 0 then writeRows
       else forEach rows (pushBatchItem this op) writeRows)
    [].

(** [__parseParamsToRow (params)] *)
Definition parseParamsToRow (params : Params.t) : object :=
  let row := [] in
  let row := forEach (Params.primaryKey params) assign1 row in
  match Params.attributeColumns params with
  | Some attributeColumns => forEach attributeColumns assign1 row
  | None => row
  end.

(** The object [{put, insert, update, delete}] that [batchWrite] resolves
    to. *)
Module Buckets.
Record t : Type := mk {
  put : list object;
  insert : list object;
  update : list object;
  delete : list object
}.

Definition empty : t := mk [] [] [] [].

Definition total (b : t) : nat :=
  List.length (put b) + List.length (insert b) + List.length (update b)
  + List.length (delete b).
End Buckets.

(** [__parseBatchWriteRowsToObject (writeRows)] *)
Definition parseBatchWriteRowsToObject (writeRows : list Params.t)
    : Buckets.t :=
  forEach writeRows
    (fun obj item =>
       let row := parseParamsToRow item in
       match Params.type item with
       | Some ty =>
           if String.eqb ty "PUT" then
             Buckets.mk (push (Buckets.put obj) row) (Buckets.insert obj)
               (Buckets.update obj) (Buckets.delete obj)
           else if String.eqb ty "INSERT" then
             Buckets.mk (Buckets.put obj) (push (Buckets.insert obj) row)
               (Buckets.update obj) (Buckets.delete obj)
           else if String.eqb ty "UPDATE" then
             Buckets.mk (Buckets.put obj) (Buckets.insert obj)
               (push (Buckets.update obj) row) (Buckets.delete obj)
           else if String.eqb ty "DELETE" then
             Buckets.mk (Buckets.put obj) (Buckets.insert obj)
               (Buckets.update obj) (push (Buckets.delete obj) row)
           else obj
       | None => obj
       end)
    Buckets.empty.

(** ** Backend responses *)

Module Data.
(** A row as the backend returns it: [primaryKey] is an array of
    [{name, value}], [attributes] an array of [{columnName, columnValue}];
    a field that is not an array is [None]. *)
Record row : Type := mkRow {
  primaryKey : option (list (string * value));
  attributes : option (list (string * value))
}.

(** The response of [getRange]: [rows] is an array (so [data.rows || []] is
    [data.rows]); [next_start_primary_key] is an array of [{name, value}]
    when the scan can be continued, and [None] when it is missing or null. *)
Record range : Type := mkRange {
  rows : list row;
  next_start_primary_key : option (list (string * value))
}.

(** One entry of a batch result: [{isOk, ...}]. *)
Record result : Type := mkResult {
  isOk : bool
}.

(** The response of [batchWriteRow]: [tables[tableName]] is the result
    array of that table. *)
Record batchWrite : Type := mkBatchWrite {
  tables : list (string * list result)
}.

(** The response of [getRow]. *)
Record get : Type := mkGet {
  row_ : row
}.
End Data.

(** [__parseDataToRow (data)] *)
Definition parseDataToRow (data : Data.row) : object :=
  let row := [] in
  let row :=
    match Data.primaryKey data with
    | Some primaryKey =>
        forEach primaryKey (fun row item => obj_set row (fst item) (snd item)) row
    | None => row
    end in
  let row :=
    match Data.attributes data with
    | Some attributes =>
        forEach attributes (fun row item => obj_set row (fst item) (snd item)) row
    | None => row
    end in
  row.

(** ** The backend client *)

Module Store.
(** [Store.Direction] *)
Inductive Direction : Type := FORWARD | BACKWARD.

Module RangeParams.
Record t : Type := mk {
  tableName : string;
  direction : Direction;
  inclusiveStartPrimaryKey : columns;
  exclusiveEndPrimaryKey : columns;
  startColumn : value;
  endColumn : value;
  limit : Z
}.
End RangeParams.

Module GetParams.
Record t : Type := mk {
  tableName : string;
  primaryKey : columns;
  startColumn : value;
  endColumn : value
}.
End GetParams.

(** [{ tables: [{ tableName, rows }] }] *)
Module BatchParams.
Record t : Type := mk {
  tableName : string;
  rows : list Params.t
}.
End BatchParams.

(** The calls made on [this.__store], indexed by what they resolve to. *)
Inductive call : Type -> Type :=
| putRow (params : Params.t) : call value
| deleteRow (params : Params.t) : call value
| updateRow (params : Params.t) : call value
| batchWriteRow (params : BatchParams.t) : call Data.batchWrite
| getRow (params : GetParams.t) : call Data.get
| getRange (params : RangeParams.t) : call Data.range.
End Store.

(** ** Promises *)

(** What a promise is rejected with: the facade's own ['参数无效'], a
    [TypeError] raised inside a callback, or whatever the backend fails
    with. *)
Inductive error : Type :=
| InvalidArgument
| TypeError
| BackendError (reason : string).

(** An asynchronous computation of the facade: it resolves, rejects, or
    calls the backend and goes on with what the call resolves to.
    [OutOfFuel] cuts a recursion that was given too little fuel. *)
Inductive prog (R : Type) : Type :=
| Ret (r : R)
| Reject (e : error)
| OutOfFuel
| Call {X : Type} (c : Store.call X) (k : X -> prog R).
Arguments Ret {R} r.
Arguments Reject {R} e.
Arguments OutOfFuel {R}.
Arguments Call {R X} c k.

(** [p.then(f)] *)
Fixpoint then_ {A B} (p : prog A) (f : A -> prog B) : prog B :=
  match p with
  | Ret r => f r
  | Reject e => Reject e
  | OutOfFuel => OutOfFuel
  | Call c k => Call c (fun x => then_ (k x) f)
  end.

(** What a backend call comes back with. *)
Inductive reply (X : Type) : Type :=
| Ok (x : X)
| Fail (e : error).
Arguments Ok {X} x.
Arguments Fail {X} e.

(** A backend: some state, and an answer to every call. *)
Record backend : Type := mkBackend {
  state : Type;
  handle : forall X, Store.call X -> state -> reply X * state
}.

Inductive outcome (R : Type) : Type :=
| Resolved (r : R)
| Rejected (e : error)
| Unfinished.
Arguments Resolved {R} r.
Arguments Rejected {R} e.
Arguments Unfinished {R}.

(** A call as it is recorded in the log. *)
Inductive logged : Type :=
| Logged {X : Type} (c : Store.call X).

(** Running a computation against a backend: its outcome, the calls issued
    in order, and the backend's final state. *)
Fixpoint run {R} (be : backend) (p : prog R) (s : state be)
    : outcome R * list logged * state be :=
  match p with
  | Ret r => (Resolved r, [], s)
  | Reject e => (Rejected e, [], s)
  | OutOfFuel => (Unfinished, [], s)
  | Call c k =>
      match handle be _ c s with
      | (Ok x, s') =>
          let '(o, log, s'') := run be (k x) s' in
          (o, Logged c :: log, s'')
      | (Fail e, s') => (Rejected e, [Logged c], s')
      end
  end.

(** ** Single-row operations *)

(** [put (row)] *)
Definition put (this : Table) (row : arg object) : prog (arg object) :=
  if not_ row then Reject InvalidArgument
  else
    let params := buildPutRowParams this row None in
    then_ (Call (Store.putRow params) Ret) (fun _ => Ret row).

(** [insert (row)] *)
Definition insert (this : Table) (row : arg object) : prog (arg object) :=
  if not_ row then Reject InvalidArgument
  else
    let params := buildInsertRowParams this row None in
    then_ (Call (Store.putRow params) Ret) (fun _ => Ret row).

(** [delete (row)] *)
Definition delete (this : Table) (row : arg object) : prog (arg object) :=
  if not_ row then Reject InvalidArgument
  else
    let params := buildDeleteRowParams this row None in
    then_ (Call (Store.deleteRow params) Ret) (fun _ => Ret row).

(** [update (row)] *)
Definition update (this : Table) (row : arg object) : prog value :=
  if not_ row then Reject InvalidArgument
  else
    let params := buildUpdateRowParams this row None in
    Call (Store.updateRow params) Ret.

(** The [options] of [get]: [startColumn] and [endColumn]. *)
Record ColumnOptions : Type := mkColumnOptions {
  co_startColumn : value;
  co_endColumn : value
}.

(** [Object.keys(row).length === 0] *)
Definition has_no_keys (row : Data.row) : bool :=
  match Data.primaryKey row, Data.attributes row with
  | None, None => true
  | _, _ => false
  end.

(** [get (row, options)]; [None] is the [null] of a row that was not
    found. *)
Definition get (this : Table) (row : arg object) (options : option ColumnOptions)
    : prog (option object) :=
  if not_ row then Reject InvalidArgument
  else
    let options :=
      match options with
      | Some o => o
      | None => mkColumnOptions VUndefined VUndefined
      end in
    let params :=
      {| Store.GetParams.tableName := tableName this;
         Store.GetParams.primaryKey := parseRowToPrimaryKey this row (VStr "");
         Store.GetParams.startColumn := co_startColumn options;
         Store.GetParams.endColumn := co_endColumn options |} in
    then_ (Call (Store.getRow params) Ret)
      (fun data =>
         let row := Data.row_ data in
         if has_no_keys row then Ret None
         else Ret (Some (parseDataToRow row))).

(** ** Batch operations *)

(** [arr.filter((item, i) => f(item, i))], from index [i] on. *)
Fixpoint filter_from {A} (f : A -> nat -> bool) (i : nat) (arr : list A)
    : list A :=
  match arr with
  | [] => []
  | item :: arr' =>
      if f item i then item :: filter_from f (S i) arr'
      else filter_from f (S i) arr'
  end.

(** [(arr[i] || {}).isOk] *)
Definition isOk_at (arr : list Data.result) (i : nat) : bool :=
  match nth_error arr i with
  | Some r => Data.isOk r
  | None => false
  end.

(** [data.tables[tableName]] *)
Fixpoint table_results (tables : list (string * list Data.result))
    (tableName : string) : option (list Data.result) :=
  match tables with
  | [] => None
  | (n, arr) :: tables' =>
      if String.eqb n tableName then Some arr else table_results tables' tableName
  end.

(** [batchWrite (batchOpData)] *)
Definition batchWrite (this : Table) (batchOpData : opMap) : prog Buckets.t :=
  let rows := parseObjectToBatchWriteRows this batchOpData in
  let params :=
    {| Store.BatchParams.tableName := tableName this;
       Store.BatchParams.rows := rows |} in
  then_ (Call (Store.batchWriteRow params) Ret)
    (fun data =>
       match table_results (Data.tables data) (tableName this), rows with
       | Some arr, _ =>
           let rows := filter_from (fun item i => isOk_at arr i) 0 rows in
           Ret (parseBatchWriteRowsToObject rows)
       | None, [] => Ret (parseBatchWriteRowsToObject [])
       | None, _ :: _ => Reject TypeError
       end).

(** [!rows || !rows.length] *)
Definition no_rows {A} (rows : arg (list A)) : bool :=
  not_ rows || Nat.eqb (List.length (or_empty rows)) 0.

(** [batchPut (rows)] *)
Definition batchPut (this : Table) (rows : arg (list (arg object)))
    : prog Buckets.t :=
  if no_rows rows then Reject InvalidArgument
  else batchWrite this [("put", rows)].

(** [batchInsert (rows)] *)
Definition batchInsert (this : Table) (rows : arg (list (arg object)))
    : prog Buckets.t :=
  if no_rows rows then Reject InvalidArgument
  else batchWrite this [("insert", rows)].

(** [batchDelete (rows)] *)
Definition batchDelete (this : Table) (rows : arg (list (arg object)))
    : prog Buckets.t :=
  if no_rows rows then Reject InvalidArgument
  else batchWrite this [("delete", rows)].

(** [batchUpdate (rows)], whose guard is [!rows || rows.length === 0]. *)
Definition batchUpdate (this : Table) (rows : arg (list (arg object)))
    : prog Buckets.t :=
  if not_ rows || Nat.eqb (List.length (or_empty rows)) 0 then
    Reject InvalidArgument
  else batchWrite this [("update", rows)].

(** ** Range reads *)

(** The [options] of [getRange]; [__rows] is the accumulator, absent when
    the caller's object does not have it. *)
Record RangeOptions : Type := mkRangeOptions {
  ro_startColumn : value;
  ro_endColumn : value;
  ro___rows : option (list Data.row)
}.

(** [next.forEach((item) => { startRow[item.name] = item.value })]: the
    caller's object is updated in place and is the start row of the next
    call; a property cannot be created on a falsy value. *)
Definition advance_object (startRow : object) (next : list (string * value))
    : object :=
  forEach next (fun o item => obj_set o (fst item) (snd item)) startRow.

Definition advance (startRow : arg object) (next : list (string * value))
    : option (arg object) :=
  match next, startRow with
  | [], _ => Some startRow
  | _ :: _, Falsy _ => None
  | _ :: _, Ref o => Some (Ref (advance_object o next))
  end.

(** The parameters of the scan that [getRange] issues. *)
Definition getRange_params (this : Table) (startRow endRow : arg object)
    (options : RangeOptions) : Store.RangeParams.t :=
  {| Store.RangeParams.tableName := tableName this;
     Store.RangeParams.direction := Store.FORWARD;
     Store.RangeParams.inclusiveStartPrimaryKey :=
       parseRowToPrimaryKey this startRow VInfMin;
     Store.RangeParams.exclusiveEndPrimaryKey :=
       parseRowToPrimaryKey this endRow VInfMax;
     Store.RangeParams.startColumn := ro_startColumn options;
     Store.RangeParams.endColumn := ro_endColumn options;
     Store.RangeParams.limit := 5%Z |}.

(** [options || { __rows: [] }] *)
Definition range_options_or (options : option RangeOptions) : RangeOptions :=
  match options with
  | Some o => o
  | None => mkRangeOptions VUndefined VUndefined (Some [])
  end.

(** [getRange (startRow, endRow, options)]; [fuel] bounds the depth of the
    recursion. *)
Fixpoint getRange (fuel : nat) (this : Table) (startRow endRow : arg object)
    (options : option RangeOptions) : prog (list object) :=
  match fuel with
  | O => OutOfFuel
  | S fuel =>
      let options := range_options_or options in
      let params := getRange_params this startRow endRow options in
      Call (Store.getRange params)
        (fun data =>
           match ro___rows options with
           | None => Reject TypeError
           | Some __rows =>
               let options :=
                 mkRangeOptions (ro_startColumn options) (ro_endColumn options)
                   (Some (__rows ++ Data.rows data)) in
               match Data.next_start_primary_key data with
               | Some next =>
                   match advance startRow next with
                   | Some startRow =>
                       getRange fuel this startRow endRow (Some options)
                   | None => Reject TypeError
                   end
               | None => Ret (map parseDataToRow (__rows ++ Data.rows data))
               end
           end)
  end.

(** The [options] of [select]; a property the caller leaves out is [None]
    and takes its default. *)
Record SelectOptions : Type := mkSelectOptions {
  so_where : option (arg object);
  so_limit : option Z;
  so_page : option Z;
  so_startColumn : option value;
  so_endColumn : option value
}.

(** The [options] of [select] once the defaults are merged in. *)
Record MergedOptions : Type := mkMergedOptions {
  where_ : arg object;
  limit : Z;
  page : Z;
  startColumn : value;
  endColumn : value
}.

Definition option_or {A} (x : option A) (dflt : A) : A :=
  match x with Some a => a | None => dflt end.

(** [Object.assign({where: {}, limit: 10, page: 1, startColumn: null,
    endColumn: null}, options)] *)
Definition select_defaults (options : option SelectOptions) : MergedOptions :=
  match options with
  | Some o =>
      {| where_ := option_or (so_where o) (Ref []);
         limit := option_or (so_limit o) 10%Z;
         page := option_or (so_page o) 1%Z;
         startColumn := option_or (so_startColumn o) VNull;
         endColumn := option_or (so_endColumn o) VNull |}
  | None =>
      {| where_ := Ref []; limit := 10%Z; page := 1%Z;
         startColumn := VNull; endColumn := VNull |}
  end.

(** [select (options)] *)
Definition select (this : Table) (options : option SelectOptions)
    : prog (list object) :=
  let options := select_defaults options in
  let page := if (page options <=? 0)%Z then 1%Z else page options in
  let isFirst := (page =? 1)%Z in
  let offset := ((page - 1) * limit options)%Z in
  let params :=
    {| Store.RangeParams.tableName := tableName this;
       Store.RangeParams.direction := Store.FORWARD;
       Store.RangeParams.inclusiveStartPrimaryKey :=
         parseRowToPrimaryKey this (where_ options) VInfMin;
       Store.RangeParams.exclusiveEndPrimaryKey :=
         parseRowToPrimaryKey this (Ref []) VInfMax;
       Store.RangeParams.startColumn :=
         if isFirst then startColumn options else VStr "_";
       Store.RangeParams.endColumn :=
         if isFirst then endColumn options else VStr "__";
       Store.RangeParams.limit := if isFirst then limit options else offset |} in
  then_
    (then_ (Call (Store.getRange params) Ret)
       (fun data =>
          if isFirst then Ret (Data.rows data)
          else
            match Data.next_start_primary_key data with
            | Some next =>
                let params :=
                  {| Store.RangeParams.tableName :=
                       Store.RangeParams.tableName params;
                     Store.RangeParams.direction :=
                       Store.RangeParams.direction params;
                     Store.RangeParams.inclusiveStartPrimaryKey :=
                       map (fun item => (fst item, snd item)) next;
                     Store.RangeParams.exclusiveEndPrimaryKey :=
                       Store.RangeParams.exclusiveEndPrimaryKey params;
                     Store.RangeParams.startColumn := startColumn options;
                     Store.RangeParams.endColumn := endColumn options;
                     Store.RangeParams.limit := limit options |} in
                then_ (Call (Store.getRange params) Ret)
                  (fun data => Ret (Data.rows data))
            | None => Ret []
            end))
    (fun rows => Ret (map parseDataToRow rows)).

(** * Reading the code's behaviour *)

(** What one descriptor contributes to the primary key. *)
Definition key_component (obj : object) (defaultValue : value)
    (item : PrimaryKeyDescriptor) : columns :=
  match obj_get obj (name item) with
  | Some v =>
      [(name item, if is_Long (type item) then VLong (parseInt v) else v)]
  | None =>
      if is_undefined defaultValue then [] else [(name item, defaultValue)]
  end.

(** One call [c] is issued on the backend; the promise resolves to [f] of
    what the call resolves to, or is rejected with the backend's error. *)
Definition after_call {X R} (be : backend) (s : state be) (c : Store.call X)
    (f : X -> R) : outcome R * list logged * state be :=
  match handle be X c s with
  | (Ok x, s') => (Resolved (f x), [Logged c], s')
  | (Fail e, s') => (Rejected e, [Logged c], s')
  end.

(** The promise is rejected with ['参数无效'] and the backend is not
    called. *)
Definition rejects_before_backend {R} (p : prog R) : Prop :=
  forall (be : backend) (s : state be),
    run be p s = (Rejected InvalidArgument, [], s).

(** ** A table and backends to run it against *)

Module Example.
Definition users : Table :=
  mkTable "users" [mkKey "id" TLong; mkKey "name" (TOther "STRING")].

(** A backend that accepts every write, answers a batch with [results],
    finds no row, and serves the pages of its state one scan at a time. *)
Definition scripted (results : list Data.result) : backend :=
  {| state := list Data.range;
     handle := fun X (c : Store.call X) (s : list Data.range) =>
       match c in Store.call X return reply X * list Data.range with
       | Store.putRow _ => (Ok VUndefined, s)
       | Store.deleteRow _ => (Ok VUndefined, s)
       | Store.updateRow _ => (Ok VUndefined, s)
       | Store.batchWriteRow p =>
           (Ok (Data.mkBatchWrite [(Store.BatchParams.tableName p, results)]),
            s)
       | Store.getRow _ => (Ok (Data.mkGet (Data.mkRow None None)), s)
       | Store.getRange _ =>
           match s with
           | d :: s' => (Ok d, s')
           | [] => (Ok (Data.mkRange [] None), [])
           end
       end |}.
(** A response row of [users]. *)
Definition user (id : Z) (n : string) (age : Z) : Data.row :=
  Data.mkRow (Some [("id", VLong (Int id)); ("name", VStr n)])
    (Some [("age", VNum (Int age))]).

Definition key (id : Z) (n : string) : list (string * value) :=
  [("id", VLong (Int id)); ("name", VStr n)].

(** Five users served in three pages. *)
Definition three_pages : list Data.range :=
  [Data.mkRange [user 1 "ann" 31; user 2 "bob" 32] (Some (key 3 "cy"));
   Data.mkRange [user 3 "cy" 33; user 4 "dan" 34] (Some (key 5 "eve"));
   Data.mkRange [user 5 "eve" 35] None].
End Example.

(** ** Operation labels, as the batch translator's contract words them *)

Inductive OpKind : Type := OpPut | OpInsert | OpUpdate | OpDelete.

(** Two labels are the same up to the case of their letters. *)
Definition same_label (a b : string) : bool :=
  String.eqb (toLowerCase a) (toLowerCase b).

(** The operation that a key of the operation map names, if any. *)
Definition kind_of_label (key : string) : option OpKind :=
  if same_label key "put" then Some OpPut
  else if same_label key "insert" then Some OpInsert
  else if same_label key "update" then Some OpUpdate
  else if same_label key "delete" then Some OpDelete
  else None.

(** The batch item of one row: the parameters of the operation's builder,
    without [tableName], tagged with the backend's operation type. *)
Definition batch_item (this : Table) (kind : OpKind) (row : arg object)
    : Params.t :=
  match kind with
  | OpPut => Params.as_batch_item "PUT" (buildPutRowParams this row None)
  | OpInsert => Params.as_batch_item "PUT" (buildInsertRowParams this row None)
  | OpUpdate => Params.as_batch_item "UPDATE" (buildUpdateRowParams this row None)
  | OpDelete => Params.as_batch_item "DELETE" (buildDeleteRowParams this row None)
  end.

(** The batch items that one entry of the operation map contributes. *)
Definition entry_items (this : Table) (entry : string * arg (list (arg object)))
    : list Params.t :=
  match kind_of_label (fst entry) with
  | Some kind => map (batch_item this kind) (or_empty (snd entry))
  | None => []
  end.

(** ** The round trip through the put parameters *)

(** The value that the last property of name [k] in an array of
    single-property objects holds: what merging them one after the other
    leaves under [k]. *)
Fixpoint last_assigned (l : columns) (k : string) : option value :=
  match l with
  | [] => None
  | (k', v) :: l' =>
      match last_assigned l' k with
      | Some w => Some w
      | None => if String.eqb k' k then Some v else None
      end
  end.

(** The type of the descriptor named [k] (of the last one, should the schema
    repeat a name). *)
Fixpoint key_type_of (pks : list PrimaryKeyDescriptor) (k : string)
    : option KeyType :=
  match pks with
  | [] => None
  | item :: pks' =>
      match key_type_of pks' k with
      | Some ty => Some ty
      | None => if String.eqb (name item) k then Some (type item) else None
      end
  end.

(** How a value is encoded in the parameters under a descriptor of type
    [ty]. *)
Definition encoded (ty : KeyType) (v : value) : value :=
  if is_Long ty then Long_fromNumber (parseInt v) else v.

(** ** The scans of the paginators *)

(** The scan of [getRange] from [startRow], with the column bounds [sc] and
    [ec] of its options. *)
Definition range_scan (this : Table) (startRow : object) (endRow : arg object)
    (sc ec : value) : Store.RangeParams.t :=
  getRange_params this (Ref startRow) endRow (mkRangeOptions sc ec None).

(** The backend, in state [s], serves the range from [startRow] in the
    pages [pages]: every page but the last comes with a continuation key,
    from which the next scan starts, and the last comes with none. *)
Inductive scan_pages (be : backend) (this : Table) (endRow : arg object)
    (sc ec : value)
    : state be -> object -> list Data.range -> state be -> Prop :=
| scan_last (s : state be) (startRow : object) (data : Data.range)
    (s' : state be) :
    handle be _ (Store.getRange (range_scan this startRow endRow sc ec)) s
    = (Ok data, s') ->
    Data.next_start_primary_key data = None ->
    scan_pages be this endRow sc ec s startRow [data] s'
| scan_more (s : state be) (startRow : object) (data : Data.range)
    (next : list (string * value)) (s' : state be)
    (pages : list Data.range) (s'' : state be) :
    handle be _ (Store.getRange (range_scan this startRow endRow sc ec)) s
    = (Ok data, s') ->
    Data.next_start_primary_key data = Some next ->
    scan_pages be this endRow sc ec s' (advance_object startRow next) pages s'' ->
    scan_pages be this endRow sc ec s startRow (data :: pages) s''.

(** The scans of [getRange] over these pages, in order. *)
Fixpoint range_calls (this : Table) (startRow : object) (endRow : arg object)
    (sc ec : value) (pages : list Data.range) : list logged :=
  match pages with
  | [] => []
  | data :: pages' =>
      Logged (Store.getRange (range_scan this startRow endRow sc ec))
      :: match Data.next_start_primary_key data with
         | Some next =>
             range_calls this (advance_object startRow next) endRow sc ec pages'
         | None => []
         end
  end.

(** ** Batch items by tag *)

(** [item.type === tag] *)
Definition has_type (tag : string) (item : Params.t) : bool :=
  match Params.type item with
  | Some ty => String.eqb ty tag
  | None => false
  end.

(** The positions of a batch of [n] items whose result is a success. *)
Definition successes (arr : list Data.result) (n : nat) : list nat :=
  filter (isOk_at arr) (seq 0 n).

(** * The rest of the facade *)

(** ** The constructor *)

(** The [options] of the constructor; a property that is left out is
    [None]. *)
Record TableOptions : Type := mkTableOptions {
  to_primaryKeys : option (list PrimaryKeyDescriptor);
  to_timeToLive : option number;
  to_maxVersions : option number;
  to_reservedRead : option number;
  to_reservedWrite : option number;
  to_streamEnable : option bool;
  to_streamExpirationTime : option number
}.

(** [x || dflt] on a number that may be missing: [0] and [NaN] are falsy. *)
Definition number_or (x : option number) (dflt : number) : number :=
  match x with
  | Some (Int z) => if (z =? 0)%Z then dflt else Int z
  | Some NaN => dflt
  | None => dflt
  end.

(** [x || false] *)
Definition bool_or_false (x : option bool) : bool :=
  match x with Some b => b | None => false end.

(** [x || []] *)
Definition keys_or_empty (x : option (list PrimaryKeyDescriptor))
    : list PrimaryKeyDescriptor :=
  match x with Some l => l | None => [] end.

(** An instance of [Table]: the table proper and the settings and status
    that the constructor sets beside it. *)
Record Facade : Type := mkFacade {
  table : Table;
  timeToLive : number;
  maxVersions : number;
  reservedRead : number;
  reservedWrite : number;
  streamEnable : bool;
  streamExpirationTime : number;
  isSynced : bool
}.

Definition no_options : TableOptions :=
  mkTableOptions None None None None None None None.

(** [constructor (tableName, options)]: reading a property of [undefined]
    or [null] throws; any other falsy value has no property. *)
Definition constructor_ (tableName : string) (options : arg TableOptions)
    : Facade + error :=
  match options with
  | Falsy FUndefined => inr TypeError
  | Falsy FNull => inr TypeError
  | _ =>
      let options :=
        match options with Ref o => o | Falsy _ => no_options end in
      inl {| table := mkTable tableName (keys_or_empty (to_primaryKeys options));
             timeToLive := number_or (to_timeToLive options) (Int (-1));
             maxVersions := number_or (to_maxVersions options) (Int 1);
             reservedRead := number_or (to_reservedRead options) (Int 0);
             reservedWrite := number_or (to_reservedWrite options) (Int 0);
             streamEnable := bool_or_false (to_streamEnable options);
             streamExpirationTime :=
               number_or (to_streamExpirationTime options) (Int 0);
             isSynced := false |}
  end.

(** ** sync *)

(** What [describeTable] resolves to: [data.table_meta.primary_key]. *)
Record DescribeData : Type := mkDescribeData {
  primary_key : list PrimaryKeyDescriptor
}.

(** The fate of a promise made with [new Promise]. *)
Inductive settlement (R E : Type) : Type :=
| Resolves (r : R)
| RejectsWith (e : E)
| NeverSettles.
Arguments Resolves {R E} r.
Arguments RejectsWith {R E} e.
Arguments NeverSettles {R E}.

(** [resolve(x)] and [reject(x)]: only the first one counts. *)
Definition settle {R E} (p : option (settlement R E)) (st : settlement R E)
    : option (settlement R E) :=
  match p with
  | None => Some st
  | Some _ => p
  end.

(** The callback [(err, data) => { ... }] that [sync] hands to [then]: it
    rejects on a truthy [err], then reads [data.table_meta.primary_key],
    which throws when [data] is falsy; what is thrown there is lost with the
    promise that [then] returns. *)
Definition sync_callback (this : Facade) (err data : arg DescribeData)
    : Facade * option (settlement Facade (arg DescribeData)) :=
  let p := if not_ err then None else settle None (RejectsWith err) in
  match data with
  | Falsy _ => (this, p)
  | Ref d =>
      let this :=
        {| table := mkTable (tableName (table this)) (primary_key d);
           timeToLive := timeToLive this;
           maxVersions := maxVersions this;
           reservedRead := reservedRead this;
           reservedWrite := reservedWrite this;
           streamEnable := streamEnable this;
           streamExpirationTime := streamExpirationTime this;
           isSynced := true |} in
      (this, settle p (Resolves this))
  end.

(** [sync (force)], given what [describeTable] answers by table name: the
    instance afterwards, the fate of the promise, and the tables described.
    [then] calls its callback with the one value the promise resolved to,
    so the callback's [data] is [undefined]; a rejection of [describeTable]
    finds no handler. *)
Definition sync (this : Facade) (force : bool)
    (describeTable : string -> reply (arg DescribeData))
    : Facade * settlement Facade (arg DescribeData) * list string :=
  if isSynced this && negb force then (this, Resolves this, [])
  else
    match describeTable (tableName (table this)) with
    | Ok x =>
        let '(this', p) := sync_callback this x (Falsy FUndefined) in
        (this', match p with Some st => st | None => NeverSettles end,
         [tableName (table this)])
    | Fail _ => (this, NeverSettles, [tableName (table this)])
    end.

(** ** batchGet *)

Module BatchGet.
(** [{ tables: [{ tableName, primaryKey, startColumn, endColumn }] }] *)
Record params : Type := mkParams {
  tableName : string;
  primaryKey : list columns;
  startColumn : value;
  endColumn : value
}.

(** One entry of a batch answer: [{isOk, primaryKey, attributes}]. *)
Record item : Type := mkItem {
  isOk : bool;
  row : Data.row
}.

(** The response of [batchGetRow]: [tables[0]] is the answer for the one
    table asked, or a falsy value. *)
Record data : Type := mkData {
  tables : list (arg (list item))
}.
End BatchGet.

(** An operation that makes at most one backend call: it is rejected before
    the call, or issues the call with [params] and resolves to [k] of what
    the backend resolves to (a failure of the backend being the
    operation's). *)
Inductive request (P D R : Type) : Type :=
| Refused (e : error)
| Asked (params : P) (k : D -> R).
Arguments Refused {P D R} e.
Arguments Asked {P D R} params k.

(** [data.tables[0] || []] *)
Definition first_table (data : BatchGet.data) : list BatchGet.item :=
  match BatchGet.tables data with
  | [] => []
  | x :: _ => or_empty x
  end.

(** [return arr] for an array that has no item: the rows are none. *)
Definition arr_empty (arr : list BatchGet.item) : list object := [].

(** [batchGet (rows, options)] *)
Definition batchGet (this : Table) (rows : arg (list (arg object)))
    (options : option ColumnOptions)
    : request BatchGet.params BatchGet.data (list object) :=
  if no_rows rows then Refused InvalidArgument
  else
    let options :=
      match options with
      | Some o => o
      | None => mkColumnOptions VUndefined VUndefined
      end in
    let params :=
      {| BatchGet.tableName := tableName this;
         BatchGet.primaryKey :=
           map (fun row => parseRowToPrimaryKey this row (VStr ""))
             (or_empty rows);
         BatchGet.startColumn := co_startColumn options;
         BatchGet.endColumn := co_endColumn options |} in
    Asked params
      (fun data =>
         let arr := first_table data in
         if Nat.eqb (List.length arr) 0 then arr_empty arr
         else
           let arr := filter BatchGet.isOk arr in
           map (fun item => parseDataToRow (BatchGet.row item)) arr).

(** ** Reading the scans of the log *)

(** The call [c] is a scan that [getRange] may issue on [this] table with
    the column bounds [sc] and [ec]: forward, of limit 5, from a complete
    key to a complete key. *)
Definition range_scan_call (this : Table) (sc ec : value) (c : logged) : Prop :=
  exists p,
    c = Logged (Store.getRange p)
    /\ Store.RangeParams.tableName p = tableName this
    /\ Store.RangeParams.direction p = Store.FORWARD
    /\ Store.RangeParams.limit p = 5%Z
    /\ Store.RangeParams.startColumn p = sc
    /\ Store.RangeParams.endColumn p = ec
    /\ map fst (Store.RangeParams.inclusiveStartPrimaryKey p)
       = map name (primaryKeys this)
    /\ map fst (Store.RangeParams.exclusiveEndPrimaryKey p)
       = map name (primaryKeys this).

(** The call [c] is a scan that [select] may issue on [this] table:
    forward, up to the end of the table. *)
Definition select_scan_call (this : Table) (c : logged) : Prop :=
  exists p,
    c = Logged (Store.getRange p)
    /\ Store.RangeParams.tableName p = tableName this
    /\ Store.RangeParams.direction p = Store.FORWARD
    /\ Store.RangeParams.exclusiveEndPrimaryKey p
       = map (fun item => (name item, VInfMax)) (primaryKeys this).

(** The backend, in state [s], serves the pages [pages] of the range from
    [startRow], each with a continuation key, and fails the scan after
    them with [e]. *)
Inductive scan_fails (be : backend) (this : Table) (endRow : arg object)
    (sc ec : value)
    : state be -> object -> list Data.range -> error -> state be -> Prop :=
| fails_now (s : state be) (startRow : object) (e : error) (s' : state be) :
    handle be _ (Store.getRange (range_scan this startRow endRow sc ec)) s
    = (Fail e, s') ->
    scan_fails be this endRow sc ec s startRow [] e s'
| fails_later (s : state be) (startRow : object) (data : Data.range)
    (next : list (string * value)) (s' : state be)
    (pages : list Data.range) (e : error) (s'' : state be) :
    handle be _ (Store.getRange (range_scan this startRow endRow sc ec)) s
    = (Ok data, s') ->
    Data.next_start_primary_key data = Some next ->
    scan_fails be this endRow sc ec s' (advance_object startRow next) pages e s'' ->
    scan_fails be this endRow sc ec s startRow (data :: pages) e s''.

Module Sample.
(** A backend whose every scan comes with a continuation key. *)
Definition endless : backend :=
  {| state := unit;
     handle := fun X (c : Store.call X) (s : unit) =>
       match c in Store.call X return reply X * unit with
       | Store.putRow _ => (Ok VUndefined, s)
       | Store.deleteRow _ => (Ok VUndefined, s)
       | Store.updateRow _ => (Ok VUndefined, s)
       | Store.batchWriteRow _ => (Ok (Data.mkBatchWrite []), s)
       | Store.getRow _ => (Ok (Data.mkGet (Data.mkRow None None)), s)
       | Store.getRange _ =>
           (Ok (Data.mkRange [Example.user 1 "ann" 31] (Some (Example.key 1 "ann"))),
            s)
       end |}.

(** A backend that fails every call. *)
Definition failing (e : error) : backend :=
  {| state := unit;
     handle := fun X (c : Store.call X) (s : unit) => (Fail e, s) |}.
End Sample.

(** * Properties *)

(** ** The built-ins, on examples *)

Example parseInt_decimal : parseInt (VStr "  42px") = Int 42.
Proof. reflexivity. Qed.

Example parseInt_negative_hex : parseInt (VStr "-0x1A") = Int (-26).
Proof. reflexivity. Qed.

Example parseInt_word : parseInt (VStr "abc") = NaN.
Proof. reflexivity. Qed.

Example parseInt_empty : parseInt (VStr "") = NaN.
Proof. reflexivity. Qed.

Example parseInt_boolean : parseInt (VBool true) = NaN.
Proof. reflexivity. Qed.

Example toLocaleUpperCase_label : toLocaleUpperCase "Insert" = "INSERT".
Proof. reflexivity. Qed.

Example obj_set_keeps_place :
  obj_set [("a", VNull); ("b", VNull)] "a" (VBool true)
  = [("a", VBool true); ("b", VNull)].
Proof. reflexivity. Qed.

Example obj_set_adds_last :
  obj_set [("a", VNull)] "b" (VBool true) = [("a", VNull); ("b", VBool true)].
Proof. reflexivity. Qed.

(** ** Arrays built by [forEach] and [push] *)

Lemma forEach_push_flat_map {A B} (f : A -> list B) (l : list A) (acc : list B) :
  forEach l (fun arr x => arr ++ f x) acc = acc ++ flat_map f l.
Proof.
  unfold forEach. revert acc.
  induction l as [|x l IH]; intros acc; simpl.
  - now rewrite app_nil_r.
  - now rewrite IH, app_assoc.
Qed.

Lemma forEach_ext {A S} (f g : S -> A -> S) (l : list A) (st : S) :
  (forall s x, f s x = g s x) -> forEach l f st = forEach l g st.
Proof.
  intros E. unfold forEach. revert st.
  induction l as [|x l IH]; intros st; simpl; [reflexivity|].
  now rewrite E, IH.
Qed.

(** ** The primary key of a row *)

Lemma parseRowToPrimaryKey_components (this : Table) (row : arg object)
    (defaultValue : value) :
  parseRowToPrimaryKey this row defaultValue
  = flat_map (key_component (or_empty row) defaultValue) (primaryKeys this).
Proof.
  unfold parseRowToPrimaryKey.
  rewrite (forEach_ext _
             (fun arr item =>
                arr ++ key_component (or_empty row) defaultValue item)).
  - now rewrite forEach_push_flat_map.
  - intros arr item. unfold key_component, hasOwnProperty, get_prop, push,
      Long_fromNumber.
    destruct (obj_get (or_empty row) (name item)); simpl.
    + reflexivity.
    + destruct (is_undefined defaultValue); simpl;
        [now rewrite app_nil_r | reflexivity].
Qed.

Lemma is_undefined_true (v : value) : is_undefined v = true <-> v = VUndefined.
Proof. destruct v; simpl; split; congruence. Qed.

Lemma key_component_absent (obj : object) (dv : value)
    (item : PrimaryKeyDescriptor) :
  hasOwnProperty obj (name item) = false ->
  key_component obj dv item
  = if is_undefined dv then [] else [(name item, dv)].
Proof.
  unfold hasOwnProperty, key_component.
  destruct (obj_get obj (name item)); [discriminate | reflexivity].
Qed.

Lemma key_component_keys (obj : object) (dv : value)
    (item : PrimaryKeyDescriptor) :
  map fst (key_component obj dv item)
  = if hasOwnProperty obj (name item) || negb (is_undefined dv)
    then [name item] else [].
Proof.
  unfold key_component, hasOwnProperty.
  destruct (obj_get obj (name item)); simpl; [reflexivity|].
  now destruct (is_undefined dv).
Qed.

Lemma parseRowToPrimaryKey_keys (this : Table) (row : arg object) (dv : value) :
  map fst (parseRowToPrimaryKey this row dv)
  = filter (fun k => hasOwnProperty (or_empty row) k || negb (is_undefined dv))
      (map name (primaryKeys this)).
Proof.
  rewrite parseRowToPrimaryKey_components.
  induction (primaryKeys this) as [|item pks IH]; simpl; [reflexivity|].
  rewrite map_app, IH, key_component_keys.
  now destruct (hasOwnProperty (or_empty row) (name item)
                || negb (is_undefined dv)).
Qed.

Lemma parseRowToPrimaryKey_In (this : Table) (row : arg object) (dv : value)
    (k : string) (v : value) :
  In (k, v) (parseRowToPrimaryKey this row dv) <->
  exists item, In item (primaryKeys this)
               /\ In (k, v) (key_component (or_empty row) dv item).
Proof.
  rewrite parseRowToPrimaryKey_components, in_flat_map. reflexivity.
Qed.

(** ** Guards of the operations *)

Lemma rejects_before_backend_Reject {R} :
  rejects_before_backend (@Reject R InvalidArgument).
Proof. intros be s. reflexivity. Qed.

(** C7.  On a falsy row, [put], [insert], [update], [delete] and [get] are
    rejected with the invalid-argument error and issue no backend call; so
    are [batchPut], [batchInsert], [batchUpdate] and [batchDelete] on a
    falsy rows argument and on an empty array. *)
Theorem falsy_arguments_are_rejected_before_backend (this : Table) (f : falsy) :
  rejects_before_backend (put this (Falsy f))
  /\ rejects_before_backend (insert this (Falsy f))
  /\ rejects_before_backend (update this (Falsy f))
  /\ rejects_before_backend (delete this (Falsy f))
  /\ (forall options, rejects_before_backend (get this (Falsy f) options))
  /\ rejects_before_backend (batchPut this (Falsy f))
  /\ rejects_before_backend (batchInsert this (Falsy f))
  /\ rejects_before_backend (batchUpdate this (Falsy f))
  /\ rejects_before_backend (batchDelete this (Falsy f))
  /\ rejects_before_backend (batchPut this (Ref []))
  /\ rejects_before_backend (batchInsert this (Ref []))
  /\ rejects_before_backend (batchUpdate this (Ref []))
  /\ rejects_before_backend (batchDelete this (Ref [])).
Proof.
  repeat split; try intros options; apply rejects_before_backend_Reject.
Qed.

(** ** Writes of a row that lacks a key component *)

Lemma run_call_then {X R} (be : backend) (s : state be) (c : Store.call X)
    (f : X -> R) :
  run be (then_ (Call c Ret) (fun x => Ret (f x))) s = after_call be s c f.
Proof.
  unfold after_call. simpl. destruct (handle be X c s) as [[x|e] s']; reflexivity.
Qed.

Lemma run_call {X} (be : backend) (s : state be) (c : Store.call X) :
  run be (Call c Ret) s = after_call be s c (fun x => x).
Proof.
  unfold after_call. simpl. destruct (handle be X c s) as [[x|e] s']; reflexivity.
Qed.

(** ** The batch translator *)

Lemma lower_upper_char (c : ascii) : lower_char (upper_char c) = lower_char c.
Proof. destruct c as [[] [] [] [] [] [] [] []]; reflexivity. Qed.

Lemma upper_lower_char (c : ascii) : upper_char (lower_char c) = upper_char c.
Proof. destruct c as [[] [] [] [] [] [] [] []]; reflexivity. Qed.

Lemma toLowerCase_upper (s : string) :
  toLowerCase (toLocaleUpperCase s) = toLowerCase s.
Proof.
  induction s as [|c s IH]; simpl; [reflexivity|].
  now rewrite lower_upper_char, IH.
Qed.

Lemma toLocaleUpperCase_lower (s : string) :
  toLocaleUpperCase (toLowerCase s) = toLocaleUpperCase s.
Proof.
  induction s as [|c s IH]; simpl; [reflexivity|].
  now rewrite upper_lower_char, IH.
Qed.

(** Comparing the upper-cased key with an upper-case word is comparing the
    key with the word without regard to case. *)
Lemma upper_eqb_same_label (key word : string) :
  String.eqb (toLocaleUpperCase key) (toLocaleUpperCase word)
  = same_label key word.
Proof.
  unfold same_label. apply eq_true_iff_eq.
  rewrite !String.eqb_eq. split; intros E.
  - rewrite <- (toLowerCase_upper key), E. apply toLowerCase_upper.
  - rewrite <- (toLocaleUpperCase_lower key), E. apply toLocaleUpperCase_lower.
Qed.

Lemma pushBatchItem_kind (this : Table) (key : string)
    (writeRows : list Params.t) (row : arg object) :
  pushBatchItem this (toLocaleUpperCase key) writeRows row
  = writeRows
    ++ match kind_of_label key with
       | Some kind => [batch_item this kind row]
       | None => []
       end.
Proof.
  unfold pushBatchItem, kind_of_label, push.
  change "PUT" with (toLocaleUpperCase "put") at 1.
  change "INSERT" with (toLocaleUpperCase "insert").
  change "UPDATE" with (toLocaleUpperCase "update") at 1.
  change "DELETE" with (toLocaleUpperCase "delete") at 1.
  rewrite !upper_eqb_same_label.
  destruct (same_label key "put"); [reflexivity|].
  destruct (same_label key "insert"); [reflexivity|].
  destruct (same_label key "update"); [reflexivity|].
  destruct (same_label key "delete"); [reflexivity|].
  now rewrite app_nil_r.
Qed.

Lemma forEach_pushBatchItem (this : Table) (key : string)
    (rows : list (arg object)) (writeRows : list Params.t) :
  forEach rows (pushBatchItem this (toLocaleUpperCase key)) writeRows
  = writeRows ++ entry_items this (key, Ref rows).
Proof.
  rewrite (forEach_ext _
             (fun writeRows row =>
                writeRows
                ++ match kind_of_label key with
                   | Some kind => [batch_item this kind row]
                   | None => []
                   end))
    by (intros; apply pushBatchItem_kind).
  rewrite forEach_push_flat_map. f_equal.
  unfold entry_items. simpl.
  destruct (kind_of_label key) as [kind|];
    induction rows as [|r rs IH]; simpl; congruence.
Qed.

Lemma parseObjectToBatchWriteRows_entries (this : Table) (obj : opMap) :
  parseObjectToBatchWriteRows this obj = flat_map (entry_items this) obj.
Proof.
  unfold parseObjectToBatchWriteRows.
  rewrite (forEach_ext _ (fun writeRows entry => writeRows ++ entry_items this entry)).
  - now rewrite forEach_push_flat_map.
  - intros writeRows [key rows].
    cbn [fst snd]. rewrite forEach_pushBatchItem.
    unfold entry_items. cbn [fst snd or_empty].
    destruct rows as [f|rows]; cbn [or_empty].
    + simpl. destruct (kind_of_label key); simpl; now rewrite app_nil_r.
    + destruct rows as [|row rows']; [|reflexivity].
      simpl. destruct (kind_of_label key); simpl; now rewrite app_nil_r.
Qed.

(** ** Objects as mappings *)

Lemma obj_get_obj_set (o : object) (k k' : string) (v : value) :
  obj_get (obj_set o k v) k'
  = if String.eqb k k' then Some v else obj_get o k'.
Proof.
  induction o as [|[k0 v0] o IH]; simpl.
  - reflexivity.
  - destruct (String.eqb k0 k) eqn:E0; simpl.
    + apply String.eqb_eq in E0. subst k0.
      now destruct (String.eqb k k').
    + destruct (String.eqb k0 k') eqn:E1.
      * apply String.eqb_eq in E1. subst k0. now rewrite String.eqb_sym, E0.
      * exact IH.
Qed.

Lemma last_assigned_app (l1 l2 : columns) (k : string) :
  last_assigned (l1 ++ l2) k
  = match last_assigned l2 k with
    | Some v => Some v
    | None => last_assigned l1 k
    end.
Proof.
  induction l1 as [|[k1 v1] l1 IH]; simpl.
  - now destruct (last_assigned l2 k).
  - rewrite IH. now destruct (last_assigned l2 k).
Qed.

(** Merging single-property objects into [o]: the last one of a name
    wins. *)
Lemma obj_get_assign_all (l : columns) (o : object) (k : string) :
  obj_get (forEach l assign1 o) k
  = match last_assigned l k with
    | Some v => Some v
    | None => obj_get o k
    end.
Proof.
  unfold forEach. revert o.
  induction l as [|[k1 v1] l IH]; intros o; simpl; [reflexivity|].
  rewrite IH. destruct (last_assigned l k); [reflexivity|].
  unfold assign1. simpl. rewrite obj_get_obj_set.
  now destruct (String.eqb k1 k).
Qed.

Lemma last_assigned_not_in (l : columns) (k : string) :
  ~ In k (map fst l) -> last_assigned l k = None.
Proof.
  induction l as [|[k1 v1] l IH]; simpl; [reflexivity|].
  intros H. rewrite IH by tauto.
  destruct (String.eqb k1 k) eqn:E; [|reflexivity].
  apply String.eqb_eq in E. tauto.
Qed.

(** On an object, whose property names are distinct, the last property of a
    name is the only one. *)
Lemma last_assigned_NoDup (o : object) (k : string) :
  NoDup (map fst o) -> last_assigned o k = obj_get o k.
Proof.
  induction o as [|[k1 v1] o IH]; simpl; [reflexivity|].
  intros H. inversion H as [|? ? Hnin Hnd]; subst.
  destruct (String.eqb k1 k) eqn:E.
  - apply String.eqb_eq in E. subst k1.
    now rewrite (last_assigned_not_in o k Hnin).
  - rewrite IH by assumption. now destruct (obj_get o k).
Qed.

Lemma last_assigned_filter (q : string -> bool) (l : columns) (k : string) :
  last_assigned (filter (fun kv => q (fst kv)) l) k
  = if q k then last_assigned l k else None.
Proof.
  induction l as [|[k1 v1] l IH]; simpl.
  - now destruct (q k).
  - destruct (q k1) eqn:Q1; simpl; rewrite IH.
    + destruct (q k) eqn:Q; [reflexivity|].
      destruct (String.eqb k1 k) eqn:E; [|reflexivity].
      apply String.eqb_eq in E. congruence.
    + destruct (q k) eqn:Q; [|reflexivity].
      destruct (String.eqb k1 k) eqn:E.
      * apply String.eqb_eq in E. congruence.
      * now destruct (last_assigned l k).
Qed.

(** ** The round trip through the put parameters *)

Lemma parseRowToAttributeColumns_filter (this : Table) (row : arg object) :
  parseRowToAttributeColumns this row
  = filter (fun kv => negb (includes (map name (primaryKeys this)) (fst kv)))
      (or_empty row).
Proof.
  unfold parseRowToAttributeColumns.
  rewrite (forEach_ext _
             (fun arr kv =>
                arr ++ if negb (includes (map name (primaryKeys this)) (fst kv))
                       then [kv] else [])).
  - rewrite forEach_push_flat_map. simpl.
    induction (or_empty row) as [|kv l IH]; simpl; [reflexivity|].
    rewrite IH.
    now destruct (negb (includes (map name (primaryKeys this)) (fst kv))).
  - intros arr [k v]. unfold push. simpl.
    destruct (includes (map name (primaryKeys this)) k); simpl;
      [now rewrite app_nil_r | reflexivity].
Qed.

Lemma key_type_of_includes (pks : list PrimaryKeyDescriptor) (k : string) :
  includes (map name pks) k
  = match key_type_of pks k with Some _ => true | None => false end.
Proof.
  unfold includes.
  induction pks as [|item pks IH]; simpl; [reflexivity|].
  rewrite IH. rewrite (String.eqb_sym k (name item)).
  destruct (key_type_of pks k); [apply orb_true_r|].
  now destruct (String.eqb (name item) k).
Qed.

Lemma last_assigned_key_component (row : object) (item : PrimaryKeyDescriptor)
    (k : string) :
  last_assigned (key_component row VUndefined item) k
  = if String.eqb (name item) k
    then option_map (encoded (type item)) (obj_get row k)
    else None.
Proof.
  unfold key_component, encoded, Long_fromNumber.
  destruct (String.eqb (name item) k) eqn:E.
  - apply String.eqb_eq in E. subst k.
    destruct (obj_get row (name item)); simpl; [|reflexivity].
    now rewrite String.eqb_refl.
  - destruct (obj_get row (name item)); simpl; [|reflexivity].
    now rewrite E.
Qed.

Lemma last_assigned_primary_key (this : Table) (row : object) (k : string) :
  last_assigned (parseRowToPrimaryKey this (Ref row) VUndefined) k
  = match key_type_of (primaryKeys this) k with
    | Some ty => option_map (encoded ty) (obj_get row k)
    | None => None
    end.
Proof.
  rewrite parseRowToPrimaryKey_components. simpl.
  induction (primaryKeys this) as [|item pks IH]; simpl; [reflexivity|].
  rewrite last_assigned_app, IH, last_assigned_key_component.
  destruct (key_type_of pks k) as [ty|].
  - destruct (obj_get row k); simpl; [reflexivity|].
    now destruct (String.eqb (name item) k).
  - now destruct (String.eqb (name item) k).
Qed.

Lemma key_type_of_In (pks : list PrimaryKeyDescriptor) (k : string)
    (ty : KeyType) :
  key_type_of pks k = Some ty -> exists item, In item pks /\ type item = ty.
Proof.
  induction pks as [|item pks IH]; simpl; [discriminate|].
  destruct (key_type_of pks k) as [ty'|].
  - intros H. destruct (IH H) as (i & Hi & Ht). exists i. tauto.
  - destruct (String.eqb (name item) k); [|discriminate].
    intros H. inversion H. exists item. tauto.
Qed.

(** ** Reconciling a batch *)

Lemma filter_from_In {A} (f : A -> nat -> bool) (l : list A) (i : nat) (x : A) :
  In x (filter_from f i l) -> In x l.
Proof.
  revert i. induction l as [|y l IH]; intros i; simpl; [tauto|].
  destruct (f y i); simpl; intros H.
  - destruct H as [H|H]; [now left | right; eauto].
  - right. eauto.
Qed.

Lemma filter_from_length {A} (g : nat -> bool) (l : list A) (i : nat) :
  List.length (filter_from (fun _ j => g j) i l)
  = List.length (filter g (seq i (List.length l))).
Proof.
  revert i. induction l as [|y l IH]; intros i; simpl; [reflexivity|].
  destruct (g i); simpl; now rewrite IH.
Qed.

(** A [case tag:] of a [switch]: either the scrutinee is the tag, or the
    comparison is known to fail. *)
Ltac case_tag ty tag :=
  let E := fresh "E" in
  destruct (String.eqb ty tag) eqn:E;
  [apply String.eqb_eq in E; subst ty | ].

Lemma has_type_unfold (tag : string) (item : Params.t) :
  has_type tag item
  = match Params.type item with
    | Some ty => String.eqb ty tag
    | None => false
    end.
Proof. reflexivity. Qed.

(** The buckets, read off the tags of the items. *)
Lemma parseBatchWriteRowsToObject_by_type (writeRows : list Params.t) :
  parseBatchWriteRowsToObject writeRows
  = {| Buckets.put := map parseParamsToRow (filter (has_type "PUT") writeRows);
       Buckets.insert :=
         map parseParamsToRow (filter (has_type "INSERT") writeRows);
       Buckets.update :=
         map parseParamsToRow (filter (has_type "UPDATE") writeRows);
       Buckets.delete :=
         map parseParamsToRow (filter (has_type "DELETE") writeRows) |}.
Proof.
  unfold parseBatchWriteRowsToObject, forEach, Buckets.empty.
  match goal with
  | |- fold_left ?F _ _ = _ =>
      assert (G : forall l a b c d,
                 fold_left F l (Buckets.mk a b c d)
                 = Buckets.mk
                     (a ++ map parseParamsToRow (filter (has_type "PUT") l))
                     (b ++ map parseParamsToRow (filter (has_type "INSERT") l))
                     (c ++ map parseParamsToRow (filter (has_type "UPDATE") l))
                     (d ++ map parseParamsToRow (filter (has_type "DELETE") l)))
  end.
  { induction l as [|item l IH]; intros a b c d; simpl.
    - now rewrite !app_nil_r.
    - unfold push.
      rewrite !(has_type_unfold _ item).
      destruct (Params.type item) as [ty|]; simpl; [|apply IH].
      case_tag ty "PUT"; [simpl; rewrite IH; now rewrite <- !app_assoc|].
      case_tag ty "INSERT"; [simpl; rewrite IH; now rewrite <- !app_assoc|].
      case_tag ty "UPDATE"; [simpl; rewrite IH; now rewrite <- !app_assoc|].
      case_tag ty "DELETE"; [simpl; rewrite IH; now rewrite <- !app_assoc|].
      apply IH. }
  apply G.
Qed.

(** A batch item carries the backend's operation type, which is never
    [INSERT]. *)
Lemma batch_item_type (this : Table) (obj : opMap) (item : Params.t) :
  In item (parseObjectToBatchWriteRows this obj) ->
  has_type "INSERT" item = false
  /\ (has_type "PUT" item = true /\ has_type "UPDATE" item = false
                              /\ has_type "DELETE" item = false
      \/ has_type "PUT" item = false /\ has_type "UPDATE" item = true
                                 /\ has_type "DELETE" item = false
      \/ has_type "PUT" item = false /\ has_type "UPDATE" item = false
                                 /\ has_type "DELETE" item = true).
Proof.
  rewrite parseObjectToBatchWriteRows_entries, in_flat_map.
  intros (entry & _ & Hin). unfold entry_items in Hin.
  destruct (kind_of_label (fst entry)) as [kind|]; [|destruct Hin].
  apply in_map_iff in Hin. destruct Hin as (row & <- & _).
  destruct kind; simpl; tauto.
Qed.

Lemma typed_items_count (l : list Params.t) :
  (forall item, In item l ->
     has_type "INSERT" item = false
     /\ (has_type "PUT" item = true /\ has_type "UPDATE" item = false
                                 /\ has_type "DELETE" item = false
         \/ has_type "PUT" item = false /\ has_type "UPDATE" item = true
                                    /\ has_type "DELETE" item = false
         \/ has_type "PUT" item = false /\ has_type "UPDATE" item = false
                                    /\ has_type "DELETE" item = true)) ->
  filter (has_type "INSERT") l = []
  /\ List.length (filter (has_type "PUT") l)
     + List.length (filter (has_type "UPDATE") l)
     + List.length (filter (has_type "DELETE") l)
     = List.length l.
Proof.
  induction l as [|item l IH]; intros H; simpl; [split; reflexivity|].
  destruct IH as [IH1 IH2]; [intros i Hi; apply H; now right|].
  destruct (H item (or_introl eq_refl)) as [Hi [(Hp & Hu & Hd)|[(Hp & Hu & Hd)|(Hp & Hu & Hd)]]];
    rewrite Hi, Hp, Hu, Hd; simpl; split; try assumption; lia.
Qed.

(** What [batchWrite] resolves to, for every operation map and every result
    array [arr] of the backend: as many rows as there are successful
    positions; the rows of the successful [PUT] items (those of put and of
    insert alike) in the put bucket, those of [UPDATE] items in update, those
    of [DELETE] items in delete, in the order of the batch; and no row in
    the insert bucket. *)
Lemma batchWrite_buckets (this : Table) (obj : opMap) (arr : list Data.result) :
  let items := parseObjectToBatchWriteRows this obj in
  let kept := filter_from (fun _ i => isOk_at arr i) 0 items in
  let b := parseBatchWriteRowsToObject kept in
  Buckets.total b = List.length (successes arr (List.length items))
  /\ Buckets.insert b = []
  /\ Buckets.put b = map parseParamsToRow (filter (has_type "PUT") kept)
  /\ Buckets.update b = map parseParamsToRow (filter (has_type "UPDATE") kept)
  /\ Buckets.delete b = map parseParamsToRow (filter (has_type "DELETE") kept).
Proof.
  intros items kept b. subst b.
  rewrite parseBatchWriteRowsToObject_by_type.
  destruct (typed_items_count kept) as [Hins Hcount].
  { intros item Hin. apply (batch_item_type this obj).
    eapply filter_from_In. exact Hin. }
  unfold Buckets.total. simpl. rewrite Hins. simpl.
  repeat split.
  rewrite !length_map, Nat.add_0_r, Hcount.
  unfold kept, successes. apply (filter_from_length (isOk_at arr)).
Qed.

(** C3 on the code: an insert and an update that both succeed.  The inserted
    row is returned in the [put] bucket and the [insert] bucket is empty;
    the updated row is returned with its attributes wrapped under [PUT]. *)
Theorem batchWrite_insert_rows_land_in_put :
  fst (fst
    (run (Example.scripted [Data.mkResult true; Data.mkResult true])
       (batchWrite Example.users
          [("insert", Ref [Ref [("id", VNum (Int 1)); ("name", VStr "ann")]]);
           ("update",
            Ref [Ref [("id", VNum (Int 2)); ("name", VStr "bob");
                      ("age", VNum (Int 30))]])])
       []))
  = Resolved
      {| Buckets.put := [[("id", VLong (Int 1)); ("name", VStr "ann")]];
         Buckets.insert := [];
         Buckets.update :=
           [[("id", VLong (Int 2)); ("name", VStr "bob");
             ("PUT", VArr [VObj [("age", VNum (Int 30))]])]];
         Buckets.delete := [] |}.
Proof. reflexivity. Qed.

(** ** getRange *)

Lemma advance_Ref (startRow : object) (next : list (string * value)) :
  advance (Ref startRow) next = Some (Ref (advance_object startRow next)).
Proof. destruct next; reflexivity. Qed.

(** The recursion of [getRange], from any accumulator. *)
Lemma getRange_accumulates (be : backend) (this : Table) (endRow : arg object)
    (sc ec : value) (s : state be) (startRow : object)
    (pages : list Data.range) (s' : state be) :
  scan_pages be this endRow sc ec s startRow pages s' ->
  forall (fuel : nat) (acc : list Data.row),
    List.length pages <= fuel ->
    run be
      (getRange fuel this (Ref startRow) endRow
         (Some (mkRangeOptions sc ec (Some acc)))) s
    = (Resolved (map parseDataToRow (acc ++ List.concat (map Data.rows pages))),
       range_calls this startRow endRow sc ec pages, s').
Proof.
  induction 1 as [s startRow data s' Hcall Hnext
                 | s startRow data next s' pages s'' Hcall Hnext Hrest IH];
    intros fuel acc Hfuel.
  - destruct fuel as [|fuel]; [simpl in Hfuel; lia|].
    cbn [getRange range_options_or run].
    change (getRange_params this (Ref startRow) endRow
              (mkRangeOptions sc ec (Some acc)))
      with (range_scan this startRow endRow sc ec).
    rewrite Hcall. cbn [ro___rows ro_startColumn ro_endColumn].
    rewrite Hnext. simpl. now rewrite Hnext, app_nil_r.
  - destruct fuel as [|fuel]; [simpl in Hfuel; lia|].
    cbn [getRange range_options_or run].
    change (getRange_params this (Ref startRow) endRow
              (mkRangeOptions sc ec (Some acc)))
      with (range_scan this startRow endRow sc ec).
    rewrite Hcall. cbn [ro___rows ro_startColumn ro_endColumn].
    rewrite Hnext, advance_Ref.
    rewrite (IH fuel (acc ++ Data.rows data)) by (simpl in Hfuel; lia).
    simpl. now rewrite Hnext, app_assoc.
Qed.

(** * Further properties of the facade *)

(** ** Complete keys *)

Lemma filter_id_iff {A} (p : A -> bool) (l : list A) :
  filter p l = l <-> forallb p l = true.
Proof.
  induction l as [|a l IH]; simpl; [tauto|].
  destruct (p a) eqn:E; simpl.
  - rewrite <- IH. split; intros H; congruence.
  - split; [|discriminate].
    intros H. pose proof (filter_length_le p l) as Hlen.
    rewrite H in Hlen. simpl in Hlen. lia.
Qed.

Lemma forallb_map {A B} (f : A -> B) (p : B -> bool) (l : list A) :
  forallb p (map f l) = forallb (fun x => p (f x)) l.
Proof. induction l as [|a l IH]; simpl; [reflexivity | now rewrite IH]. Qed.

Lemma parseRowToPrimaryKey_complete (this : Table) (row : arg object)
    (dv : value) :
  dv <> VUndefined ->
  map fst (parseRowToPrimaryKey this row dv) = map name (primaryKeys this).
Proof.
  intros Hdv. rewrite parseRowToPrimaryKey_keys.
  apply filter_id_iff. apply forallb_forall. intros k _.
  destruct (is_undefined dv) eqn:E.
  - apply is_undefined_true in E. contradiction.
  - apply orb_true_r.
Qed.

(** ** get *)



(** ** Attribute columns *)

(** X3.  The attribute columns of a row are its fields that are not named
    like a primary-key descriptor, each with its value, in the order of the
    row; a falsy row has none. *)
Theorem attribute_columns_are_the_other_fields (this : Table) :
  (forall row,
     parseRowToAttributeColumns this (Ref row)
     = filter (fun kv => negb (includes (map name (primaryKeys this)) (fst kv)))
         row)
  /\ (forall row k v,
        In (k, v) (parseRowToAttributeColumns this (Ref row)) <->
        In (k, v) row /\ ~ In k (map name (primaryKeys this)))
  /\ (forall f, parseRowToAttributeColumns this (Falsy f) = []).
Proof.
  split; [|split].
  - intros row. apply (parseRowToAttributeColumns_filter this (Ref row)).
  - intros row k v. rewrite parseRowToAttributeColumns_filter, filter_In.
    simpl. unfold includes.
    destruct (existsb (String.eqb k) (map name (primaryKeys this))) eqn:E.
    + apply existsb_exists in E. destruct E as (k' & Hin & Heq).
      apply String.eqb_eq in Heq. subst k'. simpl.
      split; [intros [_ H]; discriminate | tauto].
    + simpl. split; intros [H1 H2]; (split; [assumption|]); [|reflexivity].
      intros Hin. rewrite <- not_true_iff_false in E. apply E.
      apply existsb_exists. exists k. split; [assumption|].
      apply String.eqb_refl.
  - reflexivity.
Qed.

(** ** Rows built by the inversions *)

Lemma obj_set_keys (o : object) (k : string) (v : value) :
  map fst (obj_set o k v)
  = if hasOwnProperty o k then map fst o else map fst o ++ [k].
Proof.
  unfold hasOwnProperty.
  induction o as [|[k0 v0] o IH]; simpl; [reflexivity|].
  destruct (String.eqb k0 k) eqn:E; simpl; [reflexivity|].
  rewrite IH. now destruct (obj_get o k).
Qed.

Lemma hasOwnProperty_In (o : object) (k : string) :
  hasOwnProperty o k = true <-> In k (map fst o).
Proof.
  unfold hasOwnProperty.
  induction o as [|[k0 v0] o IH]; simpl; [split; [discriminate | tauto]|].
  destruct (String.eqb k0 k) eqn:E.
  - apply String.eqb_eq in E. tauto.
  - apply String.eqb_neq in E. rewrite IH. tauto.
Qed.

Lemma obj_set_NoDup (o : object) (k : string) (v : value) :
  NoDup (map fst o) -> NoDup (map fst (obj_set o k v)).
Proof.
  intros H. rewrite obj_set_keys.
  destruct (hasOwnProperty o k) eqn:E; [assumption|].
  apply NoDup_app; [assumption | repeat constructor; simpl; tauto |].
  intros x Hin [<-|[]].
  apply hasOwnProperty_In in Hin. congruence.
Qed.

Lemma assign_all_NoDup (l : columns) (o : object) :
  NoDup (map fst o) -> NoDup (map fst (forEach l assign1 o)).
Proof.
  unfold forEach. revert o.
  induction l as [|[k v] l IH]; intros o H; simpl; [assumption|].
  apply IH. now apply obj_set_NoDup.
Qed.

(** Whatever the parameters or the response they are built from, the rows
    that [__parseParamsToRow] and [__parseDataToRow] return are objects in
    their own right: no property name occurs twice. *)
Lemma rebuilt_rows_have_distinct_names :
  (forall params, NoDup (map fst (parseParamsToRow params)))
  /\ (forall data, NoDup (map fst (parseDataToRow data))).
Proof.
  split.
  - intros params. unfold parseParamsToRow.
    destruct (Params.attributeColumns params);
      repeat apply assign_all_NoDup; constructor.
  - intros data. unfold parseDataToRow.
    destruct (Data.primaryKey data), (Data.attributes data);
      repeat apply (assign_all_NoDup _ _); constructor.
Qed.

Lemma parseParamsToRow_lookup (params : Params.t) (k : string) :
  obj_get (parseParamsToRow params) k
  = match
      match Params.attributeColumns params with
      | Some attributeColumns => last_assigned attributeColumns k
      | None => None
      end
    with
    | Some v => Some v
    | None => last_assigned (Params.primaryKey params) k
    end.
Proof.
  unfold parseParamsToRow.
  destruct (Params.attributeColumns params) as [attrs|].
  - rewrite !obj_get_assign_all.
    destruct (last_assigned attrs k); [reflexivity|].
    now destruct (last_assigned (Params.primaryKey params) k).
  - rewrite obj_get_assign_all.
    now destruct (last_assigned (Params.primaryKey params) k).
Qed.


(** ** batchWrite *)

Lemma batchWrite_log (this : Table) (obj : opMap) (be : backend)
    (s : state be) :
  snd (fst (run be (batchWrite this obj) s))
  = [Logged
       (Store.batchWriteRow
          {| Store.BatchParams.tableName := tableName this;
             Store.BatchParams.rows := parseObjectToBatchWriteRows this obj |})].
Proof.
  unfold batchWrite. cbn [then_ run].
  destruct (handle be _ _ s) as [[data|e] s']; [|reflexivity].
  destruct (table_results _ _); [reflexivity|].
  destruct (parseObjectToBatchWriteRows this obj); reflexivity.
Qed.



(** X8.  The batch list of two operation maps put one after the other is
    the batch list of the first followed by that of the second; and no item
    of a batch list keeps a [tableName] or carries a type other than [PUT],
    [UPDATE] and [DELETE]. *)
Theorem parseObjectToBatchWriteRows_app (this : Table) (obj1 obj2 : opMap) :
  parseObjectToBatchWriteRows this (obj1 ++ obj2)
  = parseObjectToBatchWriteRows this obj1
    ++ parseObjectToBatchWriteRows this obj2
  /\ Forall
       (fun item =>
          Params.tableName item = None
          /\ (Params.type item = Some "PUT" \/ Params.type item = Some "UPDATE"
              \/ Params.type item = Some "DELETE"))
       (parseObjectToBatchWriteRows this (obj1 ++ obj2)).
Proof.
  split.
  - rewrite !parseObjectToBatchWriteRows_entries. apply flat_map_app.
  - apply Forall_forall. intros item.
    rewrite parseObjectToBatchWriteRows_entries, in_flat_map.
    intros (entry & _ & Hin). unfold entry_items in Hin.
    destruct (kind_of_label (fst entry)) as [kind|]; [|destruct Hin].
    apply in_map_iff in Hin. destruct Hin as (row & <- & _).
    destruct kind; simpl; tauto.
Qed.

(** ** getRange, off the good path *)

Lemma getRange_no_options (fuel : nat) (this : Table)
    (startRow endRow : arg object) :
  getRange fuel this startRow endRow None
  = getRange fuel this startRow endRow
      (Some (mkRangeOptions VUndefined VUndefined (Some []))).
Proof. destruct fuel; reflexivity. Qed.




Lemma getRange_endless_acc (be : backend) (this : Table) (endRow : arg object) :
  (forall p s, exists data next s',
      handle be _ (Store.getRange p) s = (Ok data, s')
      /\ Data.next_start_primary_key data = Some next) ->
  forall fuel startRow sc ec acc s,
    fst (fst (run be
                (getRange fuel this (Ref startRow) endRow
                   (Some (mkRangeOptions sc ec (Some acc)))) s))
    = Unfinished
    /\ List.length
         (snd (fst (run be
                      (getRange fuel this (Ref startRow) endRow
                         (Some (mkRangeOptions sc ec (Some acc)))) s)))
       = fuel.
Proof.
  intros Hbe. induction fuel as [|fuel IH]; intros startRow sc ec acc s.
  - split; reflexivity.
  - cbn [getRange range_options_or run].
    destruct (Hbe (getRange_params this (Ref startRow) endRow
                     (mkRangeOptions sc ec (Some acc))) s)
      as (data & next & s' & Hcall & Hnext).
    rewrite Hcall. cbn [ro___rows ro_startColumn ro_endColumn].
    rewrite Hnext, advance_Ref.
    specialize (IH (advance_object startRow next) sc ec (acc ++ Data.rows data) s').
    destruct (run be _ s') as [[o log] s'']. simpl in *.
    destruct IH as [-> ->]. split; reflexivity.
Qed.



Lemma getRange_params_call (this : Table) (startRow endRow : arg object)
    (options : RangeOptions) :
  range_scan_call this (ro_startColumn options) (ro_endColumn options)
    (Logged (Store.getRange (getRange_params this startRow endRow options))).
Proof.
  eexists. split; [reflexivity|].
  repeat (split; [reflexivity|]).
  split; apply parseRowToPrimaryKey_complete; discriminate.
Qed.

(** X12.  Whatever the backend answers, every call that [getRange] issues
    is a forward scan of its own table, of limit 5, with the column bounds
    of its options, from a complete key to a complete key; and it issues at
    most one call per level of recursion. *)
Theorem getRange_issues_only_forward_scans (fuel : nat) (this : Table)
    (startRow endRow : arg object) (options : option RangeOptions)
    (be : backend) (s : state be) :
  Forall
    (range_scan_call this (ro_startColumn (range_options_or options))
       (ro_endColumn (range_options_or options)))
    (snd (fst (run be (getRange fuel this startRow endRow options) s)))
  /\ List.length
       (snd (fst (run be (getRange fuel this startRow endRow options) s)))
     <= fuel.
Proof.
  revert startRow options s.
  induction fuel as [|fuel IH]; intros startRow options s.
  - split; [constructor | reflexivity].
  - cbn [getRange run].
    pose proof (getRange_params_call this startRow endRow
                  (range_options_or options)) as Hc.
    destruct (handle be _ _ s) as [[data|e] s'].
    2: { simpl. split; [repeat constructor; assumption | lia]. }
    destruct (ro___rows (range_options_or options)) as [acc|].
    2: { simpl. split; [repeat constructor; assumption | lia]. }
    destruct (Data.next_start_primary_key data) as [next|].
    2: { simpl. split; [repeat constructor; assumption | lia]. }
    destruct (advance startRow next) as [startRow'|].
    2: { simpl. split; [repeat constructor; assumption | lia]. }
    specialize (IH startRow'
                  (Some (mkRangeOptions (ro_startColumn (range_options_or options))
                           (ro_endColumn (range_options_or options))
                           (Some (acc ++ Data.rows data)))) s').
    destruct (run be _ s') as [[o log] s'']. simpl in *.
    destruct IH as [IH1 IH2]. split; [constructor; assumption | lia].
Qed.

(** ** select, whatever the page *)

Lemma parseRowToPrimaryKey_empty_row (this : Table) (dv : value) :
  dv <> VUndefined ->
  parseRowToPrimaryKey this (Ref []) dv
  = map (fun item => (name item, dv)) (primaryKeys this).
Proof.
  intros Hdv. rewrite parseRowToPrimaryKey_components. simpl.
  induction (primaryKeys this) as [|item l IH]; simpl; [reflexivity|].
  rewrite IH. unfold key_component. simpl.
  destruct (is_undefined dv) eqn:E; [|reflexivity].
  apply is_undefined_true in E. contradiction.
Qed.


(** ** The constructor and sync *)

Lemma number_or_truthy (x : option number) (dflt : number) :
  dflt <> Int 0 -> dflt <> NaN ->
  number_or x dflt <> Int 0 /\ number_or x dflt <> NaN.
Proof.
  intros H0 Hn. unfold number_or.
  destruct x as [[z|]|]; try (split; assumption).
  destruct (z =? 0)%Z eqn:E; [split; assumption|].
  apply Z.eqb_neq in E. split; congruence.
Qed.

Lemma number_or_not_NaN (x : option number) (z : Z) :
  number_or x (Int z) <> NaN.
Proof.
  unfold number_or. destruct x as [[z'|]|]; try discriminate.
  destruct (z' =? 0)%Z; discriminate.
Qed.

(** X15.  The constructor throws on [undefined] or [null] options.  On an
    options object it keeps the table name, starts unsynced, and replaces
    every missing or falsy setting by its default: [timeToLive] and
    [maxVersions] are never [0] nor [NaN] (a [0] becomes [-1] and [1]), the
    other numeric settings are never [NaN], and a number other than [0] is
    kept as given. *)
Theorem constructor_defaults (tableName_ : string) :
  constructor_ tableName_ (Falsy FUndefined) = inr TypeError
  /\ constructor_ tableName_ (Falsy FNull) = inr TypeError
  /\ forall o, exists fa,
       constructor_ tableName_ (Ref o) = inl fa
       /\ tableName (table fa) = tableName_
       /\ isSynced fa = false
       /\ primaryKeys (table fa) = keys_or_empty (to_primaryKeys o)
       /\ (timeToLive fa <> Int 0 /\ timeToLive fa <> NaN)
       /\ (maxVersions fa <> Int 0 /\ maxVersions fa <> NaN)
       /\ reservedRead fa <> NaN
       /\ reservedWrite fa <> NaN
       /\ streamExpirationTime fa <> NaN
       /\ (to_timeToLive o = Some (Int 0) -> timeToLive fa = Int (-1))
       /\ (to_maxVersions o = Some (Int 0) -> maxVersions fa = Int 1)
       /\ (forall z, z <> 0%Z -> to_timeToLive o = Some (Int z) ->
                     timeToLive fa = Int z)
       /\ (forall z, z <> 0%Z -> to_maxVersions o = Some (Int z) ->
                     maxVersions fa = Int z).
Proof.
  split; [reflexivity|]. split; [reflexivity|].
  intros o. eexists. split; [reflexivity|]. simpl.
  split; [reflexivity|]. split; [reflexivity|]. split; [reflexivity|].
  split; [apply number_or_truthy; discriminate|].
  split; [apply number_or_truthy; discriminate|].
  split; [apply number_or_not_NaN|].
  split; [apply number_or_not_NaN|].
  split; [apply number_or_not_NaN|].
  split; [now intros ->|]. split; [now intros ->|].
  split; intros z Hz ->; simpl; apply Z.eqb_neq in Hz; now rewrite Hz.
Qed.

Lemma constructor_defaults_witness :
  exists fa,
    constructor_ "users"
      (Ref (mkTableOptions None (Some (Int 0)) (Some (Int 3)) None None None None))
    = inl fa
    /\ timeToLive fa = Int (-1)
    /\ maxVersions fa = Int 3.
Proof.
  destruct (proj2 (proj2 (constructor_defaults "users"))
              (mkTableOptions None (Some (Int 0)) (Some (Int 3)) None None None None))
    as (fa & Hc & _ & _ & _ & _ & _ & _ & _ & _ & Httl & _ & _ & Hmax).
  exists fa. split; [exact Hc|].
  split; [apply Httl; reflexivity | apply (Hmax 3%Z); [discriminate | reflexivity]].
Defined.

(** X16.  [sync] never updates the instance: its primary keys and its
    synced status are what they were.  On an instance that is synced, and
    without [force], it resolves to the instance at once and describes no
    table.  Otherwise it describes its table once and never resolves: the
    promise is rejected with what [describeTable] resolved to when that is
    truthy, and never settles when it is falsy or when [describeTable]
    fails. *)
Theorem sync_never_updates_the_instance (this : Facade) (force : bool)
    (describeTable : string -> reply (arg DescribeData)) :
  fst (fst (sync this force describeTable)) = this
  /\ (isSynced this && negb force = true ->
      sync this force describeTable = (this, Resolves this, []))
  /\ (isSynced this && negb force = false ->
      snd (sync this force describeTable) = [tableName (table this)]
      /\ (forall r, snd (fst (sync this force describeTable)) <> Resolves r)
      /\ (forall d,
            describeTable (tableName (table this)) = Ok (Ref d) ->
            snd (fst (sync this force describeTable)) = RejectsWith (Ref d))
      /\ (forall f,
            describeTable (tableName (table this)) = Ok (Falsy f) ->
            snd (fst (sync this force describeTable)) = NeverSettles)
      /\ (forall e,
            describeTable (tableName (table this)) = Fail e ->
            snd (fst (sync this force describeTable)) = NeverSettles)).
Proof.
  unfold sync, sync_callback.
  destruct (isSynced this && negb force) eqn:E.
  - split; [reflexivity|]. split; [reflexivity | discriminate].
  - split; [now destruct (describeTable _) as [[f|d]|e]|].
    split; [discriminate|]. intros _.
    split; [now destruct (describeTable _) as [[f|d]|e]|].
    split; [destruct (describeTable _) as [[f|d]|e]; simpl; discriminate|].
    split; [now intros d ->|]. split; [now intros f ->| now intros e ->].
Qed.

Lemma sync_never_updates_the_instance_witness :
  let this :=
    mkFacade (mkTable "users" []) (Int (-1)) (Int 1) (Int 0) (Int 0) false (Int 0)
      false in
  snd (fst (sync this false
              (fun _ => Ok (Ref (mkDescribeData [mkKey "id" TLong])))))
  = RejectsWith (Ref (mkDescribeData [mkKey "id" TLong])).
Proof.
  intros this.
  apply (proj1 (proj2 (proj2 (proj2 (proj2
           (sync_never_updates_the_instance this false
              (fun _ => Ok (Ref (mkDescribeData [mkKey "id" TLong])))))
           eq_refl)))).
  reflexivity.
Defined.

(** ** batchGet *)



(** ** The builders *)

(** X18.  For one row the four builders agree on the table name and on the
    primary key.  The insert parameters are the put parameters but for the
    condition, which expects the row not to exist where put ignores
    existence; update expects the row to exist and delete ignores
    existence; a condition that is given replaces the default.  The update
    parameters carry, as attribute columns and as update columns alike, one
    [PUT] entry that wraps the attribute columns of the put parameters; the
    delete parameters carry no attribute columns. *)
Theorem builders_agree (this : Table) (row : arg object) :
  (forall c,
     buildInsertRowParams this row (Some c) = buildPutRowParams this row (Some c))
  /\ buildInsertRowParams this row None
     = buildPutRowParams this row (Some (mkCondition EXPECT_NOT_EXIST))
  /\ Params.condition (buildPutRowParams this row None) = mkCondition IGNORE
  /\ Params.condition (buildUpdateRowParams this row None)
     = mkCondition EXPECT_EXIST
  /\ Params.condition (buildDeleteRowParams this row None) = mkCondition IGNORE
  /\ (forall c,
        Params.condition (buildPutRowParams this row (Some c)) = c
        /\ Params.condition (buildUpdateRowParams this row (Some c)) = c
        /\ Params.condition (buildDeleteRowParams this row (Some c)) = c)
  /\ (forall c c',
        Params.primaryKey (buildPutRowParams this row c)
        = Params.primaryKey (buildDeleteRowParams this row c')
        /\ Params.primaryKey (buildPutRowParams this row c)
           = Params.primaryKey (buildUpdateRowParams this row c')
        /\ Params.primaryKey (buildPutRowParams this row c)
           = Params.primaryKey (buildInsertRowParams this row c'))
  /\ (forall c,
        Params.attributeColumns (buildUpdateRowParams this row c)
        = Params.updateOfAttributeColumns (buildUpdateRowParams this row c)
        /\ exists putColumns,
             Params.attributeColumns (buildPutRowParams this row c)
             = Some putColumns
             /\ Params.attributeColumns (buildUpdateRowParams this row c)
                = Some [("PUT", VArr (map (fun kv => VObj [kv]) putColumns))]
             /\ Params.attributeColumns (buildDeleteRowParams this row c) = None).
Proof.
  repeat split.
  eexists. repeat split.
Qed.

(** ** getRange with options, and when a scan fails *)



Lemma getRange_fails_acc (be : backend) (this : Table) (endRow : arg object)
    (sc ec : value) (s : state be) (startRow : object)
    (pages : list Data.range) (e : error) (s' : state be) :
  scan_fails be this endRow sc ec s startRow pages e s' ->
  forall (fuel : nat) (acc : list Data.row),
    List.length pages < fuel ->
    exists log,
      run be
        (getRange fuel this (Ref startRow) endRow
           (Some (mkRangeOptions sc ec (Some acc)))) s
      = (Rejected e, log, s')
      /\ List.length log = S (List.length pages).
Proof.
  induction 1 as [s startRow e s' Hcall
                 | s startRow data next s' pages e s'' Hcall Hnext Hrest IH];
    intros fuel acc Hfuel.
  - destruct fuel as [|fuel]; [lia|].
    cbn [getRange range_options_or run].
    change (getRange_params this (Ref startRow) endRow
              (mkRangeOptions sc ec (Some acc)))
      with (range_scan this startRow endRow sc ec).
    rewrite Hcall. eexists. split; reflexivity.
  - destruct fuel as [|fuel]; [lia|].
    cbn [getRange range_options_or run].
    change (getRange_params this (Ref startRow) endRow
              (mkRangeOptions sc ec (Some acc)))
      with (range_scan this startRow endRow sc ec).
    rewrite Hcall. cbn [ro___rows ro_startColumn ro_endColumn].
    rewrite Hnext, advance_Ref.
    destruct (IH fuel (acc ++ Data.rows data)) as (log & Hrun & Hlen);
      [simpl in Hfuel; lia|].
    rewrite Hrun. eexists. split; [reflexivity|]. simpl. now rewrite Hlen.
Qed.



(** ** Falsy rows inside a batch *)


(** * The facade on arbitrary rows

    The definitions above follow the code on ordinary rows: objects that
    inherit from [Object.prototype], have no property named
    [hasOwnProperty] or [__proto__], and are read with built-ins taken on
    safe integers and ASCII labels.  The module below follows the code off
    that ground too.  A row is an object with its prototype; a call of
    [row.hasOwnProperty] can throw; an assignment to [__proto__] goes
    through the setter that [Object.prototype] carries; and the built-ins
    of the engine and of the SDK ([parseInt], [Store.Long.fromNumber],
    [toLocaleUpperCase], the arithmetic on numbers) are parameters, about
    which nothing is assumed. *)

Module Strict.

(** ** Objects with their prototype *)

(** What an object inherits from: [Object.prototype], nothing, or an object
    [v] of its own (which it gets when [__proto__] is assigned an
    object). *)
Inductive prototype : Type :=
| ObjectPrototype
| NullPrototype
| ValuePrototype (v : value).

(** An object: its prototype and its own enumerable data properties, in
    the order of [for ... in]. *)
Record jsobject : Type := mkObject {
  proto : prototype;
  own : object
}.

(** The object literal [{ ... }]. *)
Definition literal (fields : object) : jsobject :=
  mkObject ObjectPrototype fields.

(** [obj || {}] *)
Definition or_literal (obj : arg jsobject) : jsobject :=
  match obj with Falsy _ => literal [] | Ref o => o end.

(** A value is an object (and not [null] or a primitive). *)
Definition is_object (v : value) : bool :=
  match v with
  | VObj _ | VArr _ | VLong _ | VInfMin | VInfMax => true
  | _ => false
  end.

(** What synchronous code comes to: a value, or an exception. *)
Inductive checked (A : Type) : Type :=
| Returns (a : A)
| Throws (e : error).
Arguments Returns {A} a.
Arguments Throws {A} e.

Definition bind {A B} (c : checked A) (f : A -> checked B) : checked B :=
  match c with
  | Returns a => f a
  | Throws e => Throws e
  end.

(** [arr.forEach(f)] where [f] may throw. *)
Fixpoint forEachM {A S} (arr : list A) (f : S -> A -> checked S) (st : S)
    : checked S :=
  match arr with
  | [] => Returns st
  | x :: arr' => bind (f st x) (forEachM arr' f)
  end.

(** What [obj.hasOwnProperty] is: the method of [Object.prototype], or
    something that cannot be called (an own property of that name, whose
    value is data, or [undefined] on an object that inherits nothing).  The
    arrays and the objects of the SDK inherit the method. *)
Inductive method : Type :=
| Builtin
| NotCallable.

Definition resolve_hasOwnProperty (o : jsobject) : method :=
  if hasOwnProperty (own o) "hasOwnProperty" then NotCallable
  else
    match proto o with
    | ObjectPrototype => Builtin
    | NullPrototype => NotCallable
    | ValuePrototype (VObj fields) =>
        if hasOwnProperty fields "hasOwnProperty" then NotCallable else Builtin
    | ValuePrototype VNull => NotCallable
    | ValuePrototype _ => Builtin
    end.

(** [obj.hasOwnProperty(key)] *)
Definition call_hasOwnProperty (o : jsobject) (key : string) : checked bool :=
  match resolve_hasOwnProperty o with
  | Builtin => Returns (hasOwnProperty (own o) key)
  | NotCallable => Throws TypeError
  end.

(** The properties that [for (let key in obj)] visits, each with
    [obj[key]]: none on a falsy value, the own properties on an object
    that inherits from [Object.prototype] or from nothing.  An object whose
    prototype is an object of its own is not followed: [None]. *)
Definition for_in (obj : arg jsobject) : option object :=
  match obj with
  | Falsy _ => Some []
  | Ref o =>
      match proto o with
      | ObjectPrototype | NullPrototype => Some (own o)
      | ValuePrototype _ => None
      end
  end.

(** *** Creating and assigning properties *)

Definition digit_of (c : ascii) : option N :=
  let n := N.of_nat (nat_of_ascii c) in
  if ((48 <=? n) && (n <=? 57))%N then Some (n - 48)%N else None.

Fixpoint decimal (s : string) (acc : N) : option N :=
  match s with
  | EmptyString => Some acc
  | String c s' =>
      match digit_of c with
      | Some d => decimal s' (10 * acc + d)%N
      | None => None
      end
  end.

(** The array index that a property name is, if it is one: a decimal
    numeral without leading zero, below 2^32 - 1. *)
Definition array_index (k : string) : option N :=
  match k with
  | EmptyString => None
  | String "0" EmptyString => Some 0%N
  | String "0" _ => None
  | _ =>
      match decimal k 0 with
      | Some i => if (i <? 4294967295)%N then Some i else None
      | None => None
      end
  end.

(** A new property named by the array index [i] comes, in the order of
    enumeration, after the array indices below it and before everything
    else. *)
Fixpoint insert_index (o : object) (i : N) (k : string) (v : value) : object :=
  match o with
  | [] => [(k, v)]
  | (k', v') :: o' =>
      match array_index k' with
      | Some j =>
          if (j <? i)%N then (k', v') :: insert_index o' i k v
          else (k, v) :: o
      | None => (k, v) :: o
      end
  end.

(** A new own property: among the array indices when its name is one, last
    otherwise. *)
Definition create_property (o : object) (k : string) (v : value) : object :=
  match array_index k with
  | Some i => insert_index o i k v
  | None => o ++ [(k, v)]
  end.

(** The own property [k] is given the value [v]: in place when the object
    has it, as a new property otherwise. *)
Definition define_own (o : jsobject) (k : string) (v : value) : jsobject :=
  if hasOwnProperty (own o) k then mkObject (proto o) (obj_set (own o) k v)
  else mkObject (proto o) (create_property (own o) k v).

(** The setter of [__proto__]: an object or [null] becomes the prototype,
    any other value is ignored. *)
Definition set_prototype (o : jsobject) (v : value) : jsobject :=
  if is_object v then mkObject (ValuePrototype v) (own o)
  else
    match v with
    | VNull => mkObject NullPrototype (own o)
    | _ => o
    end.

(** Whether an object reaches the accessor [__proto__] of
    [Object.prototype] when the name is not its own. *)
Definition inherits_proto_accessor (o : jsobject) : bool :=
  match proto o with
  | ObjectPrototype => true
  | NullPrototype => false
  | ValuePrototype (VObj fields) => negb (hasOwnProperty fields "__proto__")
  | ValuePrototype VNull => false
  | ValuePrototype _ => true
  end.

(** [obj[k] = v], and [Object.assign(obj, {[k]: v})]. *)
Definition js_set (o : jsobject) (k : string) (v : value) : jsobject :=
  if hasOwnProperty (own o) k then define_own o k v
  else if String.eqb k "__proto__" && inherits_proto_accessor o then
    set_prototype o v
  else define_own o k v.

(** [Object.assign(row, item)] for a single-property [item]. *)
Definition assign1 (row : jsobject) (item : string * value) : jsobject :=
  js_set row (fst item) (snd item).

(** The object [{put, insert, update, delete}] that [batchWrite] resolves
    to. *)
Module Buckets.
Record t : Type := mk {
  put : list jsobject;
  insert : list jsobject;
  update : list jsobject;
  delete : list jsobject
}.

Definition empty : t := mk [] [] [] [].
End Buckets.

(** The upper case of a label in which only the letters [a] to [z] have
    one. *)
Definition upper_ascii (s : string) : string := toLocaleUpperCase s.

(** ** Built-ins, an order of keys and rows for the examples *)

(** On the values of the examples (small integers, ASCII numerals and
    words), [parseInt] and [Store.Long.fromNumber] are the functions defined
    at the head of this file.  The other built-ins of the examples, the order
    in which their backend keeps keys and its rows are these. *)
Module Fixture.

(** The bytes of the dotless i (U+0131) and of the dotted capital I
    (U+0130) in a label. *)
Definition dotless_i (rest : string) : string :=
  String (ascii_of_nat 196) (String (ascii_of_nat 177) rest).

Definition dotted_I (rest : string) : string :=
  String (ascii_of_nat 196) (String (ascii_of_nat 176) rest).

(** [toLocaleUpperCase] under the default case mapping, on labels made of
    ASCII characters and dotless i's: a dotless i becomes [I]. *)
Fixpoint upper_default (s : string) : string :=
  match s with
  | EmptyString => EmptyString
  | String c s' =>
      match s' with
      | String c' s'' =>
          if (nat_of_ascii c =? 196) && (nat_of_ascii c' =? 177) then
            String "I" (upper_default s'')
          else String (upper_char c) (upper_default s')
      | EmptyString => String (upper_char c) EmptyString
      end
  end.

(** [toLocaleUpperCase] in a Turkish locale, on the same labels: [i]
    becomes the dotted capital I, and a dotless i becomes [I]. *)
Fixpoint upper_turkish (s : string) : string :=
  match s with
  | EmptyString => EmptyString
  | String c s' =>
      if nat_of_ascii c =? 105 then dotted_I (upper_turkish s')
      else
        match s' with
        | String c' s'' =>
            if (nat_of_ascii c =? 196) && (nat_of_ascii c' =? 177) then
              String "I" (upper_turkish s'')
            else String (upper_char c) (upper_turkish s')
        | EmptyString => String (upper_char c) EmptyString
        end
  end.

(** The numbers of [select] that are rationals, with the tests and the
    arithmetic of the code, which are exact on them as long as the results
    are halves of small integers. *)
Definition le_zero (x : Q) : bool := Qle_bool x 0.
Definition is_one (x : Q) : bool := Qeq_bool x 1.
Definition offset (page limit : Q) : Q := (page - 1) * limit.

(** An order of keys: that of the integer of their first component, with
    [Store.INF_MIN] below and [Store.INF_MAX] above the numbers of the
    examples. *)
Definition rank (key : columns) : Z :=
  match key with
  | (_, VInfMin) :: _ => (-1)%Z
  | (_, VInfMax) :: _ => 1000000%Z
  | (_, VLong (Int z)) :: _ => z
  | (_, VNum (Int z)) :: _ => z
  | _ => 0%Z
  end.

Definition by_rank (a b : columns) : bool := (rank a <? rank b)%Z.

(** Twelve users, numbered from 1. *)
Definition numbered (n : nat) : Data.row :=
  Example.user (Z.of_nat n) "u" 30.

Definition twelve : list Data.row := map numbered (seq 1 12).

End Fixture.

Section Builtins.

(** The built-ins that the code calls: [parseInt], [Store.Long.fromNumber]
    and [String.prototype.toLocaleUpperCase]. *)
Variable parseInt : value -> number.
Variable Long_fromNumber : number -> value.
Variable toLocaleUpperCase : string -> string.

(** ** Row to params *)

(** [validateRow (row)] *)
Definition validateRow (this : Table) (row : arg jsobject) : checked bool :=
  match row with
  | Falsy _ => Returns false
  | Ref row =>
      forEachM (primaryKeys this)
        (fun result item =>
           bind (call_hasOwnProperty row (name item))
             (fun has => if negb has then Returns false else Returns result))
        true
  end.

(** [__parseRowToPrimaryKey (obj, defaultValue)]; [obj[key]] is read before
    the test and used only when the property is the object's own. *)
Definition parseRowToPrimaryKey (this : Table) (obj : arg jsobject)
    (defaultValue : value) : checked columns :=
  let obj := or_literal obj in
  forEachM (primaryKeys this)
    (fun arr item =>
       let key := name item in
       let value := get_prop (own obj) key in
       bind (call_hasOwnProperty obj key)
         (fun has =>
            if has then
              let value :=
                if is_Long (type item) then Long_fromNumber (parseInt value)
                else value in
              Returns (push arr (key, value))
            else if negb (is_undefined defaultValue) then
              Returns (push arr (key, defaultValue))
            else Returns arr))
    [].

(** [__parseRowToAttributeColumns (obj)]; [None] when the loop is not
    followed. *)
Definition parseRowToAttributeColumns (this : Table) (obj : arg jsobject)
    : option columns :=
  let ignoreKeys := map name (primaryKeys this) in
  match for_in obj with
  | Some properties =>
      Some (forEach properties
              (fun arr kv =>
                 let key := fst kv in
                 if includes ignoreKeys key then arr
                 else
                   let value := snd kv in
                   push arr (key, value))
              [])
  | None => None
  end.

(** [__parseRowToUpdateOfAttributeColumns (obj)] *)
Definition parseRowToUpdateOfAttributeColumns (this : Table)
    (obj : arg jsobject) : option columns :=
  match parseRowToAttributeColumns this obj with
  | Some putColumns => Some [("PUT", VArr (map (fun kv => VObj [kv]) putColumns))]
  | None => None
  end.

(** ** Write requests *)

(** [__buildPutRowParams (row, condition)]: the primary key is built before
    the attribute columns. *)
Definition buildPutRowParams (this : Table) (row : arg jsobject)
    (condition : option Condition) : option (checked Params.t) :=
  let condition := condition_or condition IGNORE in
  match parseRowToPrimaryKey this row VUndefined with
  | Throws e => Some (Throws e)
  | Returns primaryKey =>
      match parseRowToAttributeColumns this row with
      | None => None
      | Some attributeColumns =>
          Some (Returns
                  {| Params.tableName := Some (tableName this);
                     Params.condition := condition;
                     Params.primaryKey := primaryKey;
                     Params.updateOfAttributeColumns := None;
                     Params.attributeColumns := Some attributeColumns;
                     Params.returnContent := Some Primarykey;
                     Params.type := None |})
      end
  end.

(** [__buildInsertRowParams (row, condition)] *)
Definition buildInsertRowParams (this : Table) (row : arg jsobject)
    (condition : option Condition) : option (checked Params.t) :=
  let condition := condition_or condition EXPECT_NOT_EXIST in
  buildPutRowParams this row (Some condition).

(** [__buildDeleteRowParams (row, condition)] *)
Definition buildDeleteRowParams (this : Table) (row : arg jsobject)
    (condition : option Condition) : option (checked Params.t) :=
  let condition := condition_or condition IGNORE in
  match parseRowToPrimaryKey this row VUndefined with
  | Throws e => Some (Throws e)
  | Returns primaryKey =>
      Some (Returns
              {| Params.tableName := Some (tableName this);
                 Params.condition := condition;
                 Params.primaryKey := primaryKey;
                 Params.updateOfAttributeColumns := None;
                 Params.attributeColumns := None;
                 Params.returnContent := None;
                 Params.type := None |})
  end.

(** [__buildUpdateRowParams (row, condition)]: the attribute columns are
    built before the primary key; the loop that builds them does not
    throw. *)
Definition buildUpdateRowParams (this : Table) (row : arg jsobject)
    (condition : option Condition) : option (checked Params.t) :=
  let condition := condition_or condition EXPECT_EXIST in
  let attributeColumns := parseRowToUpdateOfAttributeColumns this row in
  match parseRowToPrimaryKey this row VUndefined with
  | Throws e => Some (Throws e)
  | Returns primaryKey =>
      match attributeColumns with
      | None => None
      | Some attributeColumns =>
          Some (Returns
                  {| Params.tableName := Some (tableName this);
                     Params.condition := condition;
                     Params.primaryKey := primaryKey;
                     Params.updateOfAttributeColumns := Some attributeColumns;
                     Params.attributeColumns := Some attributeColumns;
                     Params.returnContent := Some Primarykey;
                     Params.type := None |})
      end
  end.

(** ** Single-row writes *)

(** A call of the facade: what it returns, an exception it throws before
    returning, or [None] where the code is not followed. *)
Definition called (R : Type) : Type := option (checked (prog R)).

(** The body of a write once its parameters are built. *)
Definition with_params {R} (params : option (checked Params.t))
    (k : Params.t -> prog R) : called R :=
  match params with
  | None => None
  | Some (Throws e) => Some (Throws e)
  | Some (Returns p) => Some (Returns (k p))
  end.

(** [put (row)] *)
Definition put (this : Table) (row : arg jsobject) : called (arg jsobject) :=
  if not_ row then Some (Returns (Reject InvalidArgument))
  else
    with_params (buildPutRowParams this row None)
      (fun params => then_ (Call (Store.putRow params) Ret) (fun _ => Ret row)).

(** [insert (row)] *)
Definition insert (this : Table) (row : arg jsobject) : called (arg jsobject) :=
  if not_ row then Some (Returns (Reject InvalidArgument))
  else
    with_params (buildInsertRowParams this row None)
      (fun params => then_ (Call (Store.putRow params) Ret) (fun _ => Ret row)).

(** [delete (row)] *)
Definition delete (this : Table) (row : arg jsobject) : called (arg jsobject) :=
  if not_ row then Some (Returns (Reject InvalidArgument))
  else
    with_params (buildDeleteRowParams this row None)
      (fun params =>
         then_ (Call (Store.deleteRow params) Ret) (fun _ => Ret row)).

(** [update (row)] *)
Definition update (this : Table) (row : arg jsobject) : called value :=
  if not_ row then Some (Returns (Reject InvalidArgument))
  else
    with_params (buildUpdateRowParams this row None)
      (fun params => Call (Store.updateRow params) Ret).

(** ** The batch translator *)

(** The batch operation object: its properties in the order of
    [for ... in], each an array of rows or a falsy value. *)
Definition opMap : Type := list (string * arg (list (arg jsobject))).

(** What building a batch list comes to: the list, an exception, or [None]
    where the code is not followed. *)
Definition built (A : Type) : Type := option (checked A).

(** The [switch (op)] of [__parseObjectToBatchWriteRows], for one row. *)
Definition pushBatchItem (this : Table) (op : string)
    (writeRows : list Params.t) (row : arg jsobject) : built (list Params.t) :=
  let pushed (tag : string) (item : option (checked Params.t)) :=
    match item with
    | None => None
    | Some (Throws e) => Some (Throws e)
    | Some (Returns item) =>
        Some (Returns (push writeRows (Params.as_batch_item tag item)))
    end in
  if String.eqb op "PUT" then pushed "PUT" (buildPutRowParams this row None)
  else if String.eqb op "INSERT" then
    pushed "PUT" (buildInsertRowParams this row None)
  else if String.eqb op "UPDATE" then
    pushed "UPDATE" (buildUpdateRowParams this row None)
  else if String.eqb op "DELETE" then
    pushed "DELETE" (buildDeleteRowParams this row None)
  else Some (Returns writeRows).

(** A loop whose body may throw or leave the code that is followed. *)
Fixpoint forEachB {A S} (arr : list A) (f : S -> A -> built S) (st : S)
    : built S :=
  match arr with
  | [] => Some (Returns st)
  | x :: arr' =>
      match f st x with
      | Some (Returns st') => forEachB arr' f st'
      | Some (Throws e) => Some (Throws e)
      | None => None
      end
  end.

(** [__parseObjectToBatchWriteRows (obj)] *)
Definition parseObjectToBatchWriteRows (this : Table) (obj : opMap)
    : built (list Params.t) :=
  forEachB obj
    (fun writeRows entry =>
       let key := fst entry in
       let op := toLocaleUpperCase key in
       let rows := or_empty (snd entry) in
       if Nat.eqb (List.length rows) 0 then Some (Returns writeRows)
       else forEachB rows (pushBatchItem this op) writeRows)
    [].

(** ** Params and data to row *)

(** [__parseParamsToRow (params)] *)
Definition parseParamsToRow (params : Params.t) : jsobject :=
  let row := literal [] in
  let row := forEach (Params.primaryKey params) assign1 row in
  match Params.attributeColumns params with
  | Some attributeColumns => forEach attributeColumns assign1 row
  | None => row
  end.

(** [__parseDataToRow (data)] *)
Definition parseDataToRow (data : Data.row) : jsobject :=
  let row := literal [] in
  let row :=
    match Data.primaryKey data with
    | Some primaryKey =>
        forEach primaryKey (fun row item => js_set row (fst item) (snd item)) row
    | None => row
    end in
  let row :=
    match Data.attributes data with
    | Some attributes =>
        forEach attributes (fun row item => js_set row (fst item) (snd item)) row
    | None => row
    end in
  row.

(** [__parseBatchWriteRowsToObject (writeRows)] *)
Definition parseBatchWriteRowsToObject (writeRows : list Params.t)
    : Buckets.t :=
  forEach writeRows
    (fun obj item =>
       let row := parseParamsToRow item in
       match Params.type item with
       | Some ty =>
           if String.eqb ty "PUT" then
             Buckets.mk (push (Buckets.put obj) row) (Buckets.insert obj)
               (Buckets.update obj) (Buckets.delete obj)
           else if String.eqb ty "INSERT" then
             Buckets.mk (Buckets.put obj) (push (Buckets.insert obj) row)
               (Buckets.update obj) (Buckets.delete obj)
           else if String.eqb ty "UPDATE" then
             Buckets.mk (Buckets.put obj) (Buckets.insert obj)
               (push (Buckets.update obj) row) (Buckets.delete obj)
           else if String.eqb ty "DELETE" then
             Buckets.mk (Buckets.put obj) (Buckets.insert obj)
               (Buckets.update obj) (push (Buckets.delete obj) row)
           else obj
       | None => obj
       end)
    Buckets.empty.

(** ** Batch operations *)

(** [batchWrite (batchOpData)]: the batch list is built, and can throw,
    before the promise is made. *)
Definition batchWrite (this : Table) (batchOpData : opMap)
    : called Buckets.t :=
  match parseObjectToBatchWriteRows this batchOpData with
  | None => None
  | Some (Throws e) => Some (Throws e)
  | Some (Returns rows) =>
      let params :=
        {| Store.BatchParams.tableName := tableName this;
           Store.BatchParams.rows := rows |} in
      Some (Returns
              (then_ (Call (Store.batchWriteRow params) Ret)
                 (fun data =>
                    match
                      table_results (Data.tables data) (tableName this), rows
                    with
                    | Some arr, _ =>
                        let rows :=
                          filter_from (fun item i => isOk_at arr i) 0 rows in
                        Ret (parseBatchWriteRowsToObject rows)
                    | None, [] => Ret (parseBatchWriteRowsToObject [])
                    | None, _ :: _ => Reject TypeError
                    end)))
  end.

(** [batchPut (rows)] *)
Definition batchPut (this : Table) (rows : arg (list (arg jsobject)))
    : called Buckets.t :=
  if no_rows rows then Some (Returns (Reject InvalidArgument))
  else batchWrite this [("put", rows)].

(** [batchInsert (rows)] *)
Definition batchInsert (this : Table) (rows : arg (list (arg jsobject)))
    : called Buckets.t :=
  if no_rows rows then Some (Returns (Reject InvalidArgument))
  else batchWrite this [("insert", rows)].

(** [batchDelete (rows)] *)
Definition batchDelete (this : Table) (rows : arg (list (arg jsobject)))
    : called Buckets.t :=
  if no_rows rows then Some (Returns (Reject InvalidArgument))
  else batchWrite this [("delete", rows)].

(** [batchUpdate (rows)], whose guard is [!rows || rows.length === 0]. *)
Definition batchUpdate (this : Table) (rows : arg (list (arg jsobject)))
    : called Buckets.t :=
  if not_ rows || Nat.eqb (List.length (or_empty rows)) 0 then
    Some (Returns (Reject InvalidArgument))
  else batchWrite this [("update", rows)].

(** ** Range reads *)

(** The end row of [getRange]: the very object that is passed as start row,
    or another value. *)
Inductive EndRow : Type :=
| SameObject
| Another (endRow : arg jsobject).

(** The end row as it is when the parameters are built. *)
Definition end_row (startRow : arg jsobject) (endRow : EndRow) : arg jsobject :=
  match endRow with
  | SameObject => startRow
  | Another e => e
  end.

(** [next.forEach((item) => { startRow[item.name] = item.value })]: the
    object is updated in place; a property cannot be set on a falsy
    value. *)
Definition advance (startRow : arg jsobject) (next : list (string * value))
    : checked (arg jsobject) :=
  match next, startRow with
  | [], _ => Returns startRow
  | _ :: _, Falsy _ => Throws TypeError
  | _ :: _, Ref o =>
      Returns (Ref (forEach next (fun o item => js_set o (fst item) (snd item)) o))
  end.

(** The parameters of the scan that [getRange] issues: both keys are built
    from the rows as they are at that time. *)
Definition getRange_params (this : Table) (startRow : arg jsobject)
    (endRow : EndRow) (options : RangeOptions) : checked Store.RangeParams.t :=
  bind (parseRowToPrimaryKey this startRow VInfMin)
    (fun inclusiveStartPrimaryKey =>
       bind (parseRowToPrimaryKey this (end_row startRow endRow) VInfMax)
         (fun exclusiveEndPrimaryKey =>
            Returns
              {| Store.RangeParams.tableName := tableName this;
                 Store.RangeParams.direction := Store.FORWARD;
                 Store.RangeParams.inclusiveStartPrimaryKey :=
                   inclusiveStartPrimaryKey;
                 Store.RangeParams.exclusiveEndPrimaryKey :=
                   exclusiveEndPrimaryKey;
                 Store.RangeParams.startColumn := ro_startColumn options;
                 Store.RangeParams.endColumn := ro_endColumn options;
                 Store.RangeParams.limit := 5%Z |})).

(** [getRange (startRow, endRow, options)]; [fuel] bounds the depth of the
    recursion.  An exception of the first call is thrown to the caller; an
    exception inside the callback of [then] rejects the promise. *)
Fixpoint getRange (fuel : nat) (this : Table) (startRow : arg jsobject)
    (endRow : EndRow) (options : option RangeOptions)
    : checked (prog (list jsobject)) :=
  match fuel with
  | O => Returns OutOfFuel
  | S fuel =>
      let options := range_options_or options in
      bind (getRange_params this startRow endRow options)
        (fun params =>
           Returns
             (Call (Store.getRange params)
                (fun data =>
                   match ro___rows options with
                   | None => Reject TypeError
                   | Some __rows =>
                       let options :=
                         mkRangeOptions (ro_startColumn options)
                           (ro_endColumn options)
                           (Some (__rows ++ Data.rows data)) in
                       match Data.next_start_primary_key data with
                       | Some next =>
                           match advance startRow next with
                           | Throws e => Reject e
                           | Returns startRow =>
                               match
                                 getRange fuel this startRow endRow (Some options)
                               with
                               | Returns p => p
                               | Throws e => Reject e
                               end
                           end
                       | None =>
                           Ret (map parseDataToRow (__rows ++ Data.rows data))
                       end
                   end)))
  end.

(** ** select *)

(** The numbers of [select]: whatever [options.page] and [options.limit]
    hold, with the tests and the arithmetic that the code applies to
    them. *)
Variable J : Type.
(** The numbers [1] and [10]. *)
Variable one : J.
Variable ten : J.
(** [x <= 0] *)
Variable le_zero : J -> bool.
(** [x === 1] *)
Variable is_one : J -> bool.
(** [(page - 1) * limit] *)
Variable offset : J -> J -> J.

(** The parameters of a scan of [select]. *)
Record ScanParams : Type := mkScanParams {
  sp_tableName : string;
  sp_direction : Store.Direction;
  sp_inclusiveStartPrimaryKey : columns;
  sp_exclusiveEndPrimaryKey : columns;
  sp_startColumn : value;
  sp_endColumn : value;
  sp_limit : J
}.

(** A promise of [select]: it resolves, rejects, or scans and goes on with
    the response. *)
Inductive scanning (R : Type) : Type :=
| SRet (r : R)
| SReject (e : error)
| SCall (params : ScanParams) (k : Data.range -> scanning R).
Arguments SRet {R} r.
Arguments SReject {R} e.
Arguments SCall {R} params k.

(** [p.then(f)] *)
Fixpoint sthen {A B} (p : scanning A) (f : A -> scanning B) : scanning B :=
  match p with
  | SRet r => f r
  | SReject e => SReject e
  | SCall params k => SCall params (fun data => sthen (k data) f)
  end.

(** A backend that answers scans. *)
Record scanner : Type := mkScanner {
  sstate : Type;
  scan : ScanParams -> sstate -> reply Data.range * sstate
}.

(** Running the promise: its outcome, the scans issued in order, and the
    final state of the backend. *)
Fixpoint srun {R} (be : scanner) (p : scanning R) (s : sstate be)
    : outcome R * list ScanParams * sstate be :=
  match p with
  | SRet r => (Resolved r, [], s)
  | SReject e => (Rejected e, [], s)
  | SCall params k =>
      match scan be params s with
      | (Ok data, s') =>
          let '(o, log, s'') := srun be (k data) s' in
          (o, params :: log, s'')
      | (Fail e, s') => (Rejected e, [params], s')
      end
  end.

(** The [options] of [select]; a property the caller leaves out is
    [None]. *)
Record SelectOptions : Type := mkSelectOptions {
  so_where : option (arg jsobject);
  so_limit : option J;
  so_page : option J;
  so_startColumn : option value;
  so_endColumn : option value
}.

(** The [options] once the defaults are merged in. *)
Record MergedOptions : Type := mkMergedOptions {
  where_ : arg jsobject;
  limit : J;
  page : J;
  startColumn : value;
  endColumn : value
}.

(** [Object.assign({where: {}, limit: 10, page: 1, startColumn: null,
    endColumn: null}, options)] *)
Definition select_defaults (options : option SelectOptions) : MergedOptions :=
  match options with
  | Some o =>
      {| where_ := option_or (so_where o) (Ref (literal []));
         limit := option_or (so_limit o) ten;
         page := option_or (so_page o) one;
         startColumn := option_or (so_startColumn o) VNull;
         endColumn := option_or (so_endColumn o) VNull |}
  | None =>
      {| where_ := Ref (literal []); limit := ten; page := one;
         startColumn := VNull; endColumn := VNull |}
  end.

(** [select (options)] *)
Definition select (this : Table) (options : option SelectOptions)
    : checked (scanning (list jsobject)) :=
  let options := select_defaults options in
  let page := if le_zero (page options) then one else page options in
  let isFirst := is_one page in
  let offset := offset page (limit options) in
  bind (parseRowToPrimaryKey this (where_ options) VInfMin)
    (fun inclusiveStartPrimaryKey =>
       bind (parseRowToPrimaryKey this (Ref (literal [])) VInfMax)
         (fun exclusiveEndPrimaryKey =>
            let params :=
              {| sp_tableName := tableName this;
                 sp_direction := Store.FORWARD;
                 sp_inclusiveStartPrimaryKey := inclusiveStartPrimaryKey;
                 sp_exclusiveEndPrimaryKey := exclusiveEndPrimaryKey;
                 sp_startColumn :=
                   if isFirst then startColumn options else VStr "_";
                 sp_endColumn := if isFirst then endColumn options else VStr "__";
                 sp_limit := if isFirst then limit options else offset |} in
            Returns
              (sthen
                 (sthen (SCall params SRet)
                    (fun data =>
                       if isFirst then SRet (Data.rows data)
                       else
                         match Data.next_start_primary_key data with
                         | Some next =>
                             let params :=
                               {| sp_tableName := sp_tableName params;
                                  sp_direction := sp_direction params;
                                  sp_inclusiveStartPrimaryKey :=
                                    map (fun item => (fst item, snd item)) next;
                                  sp_exclusiveEndPrimaryKey :=
                                    sp_exclusiveEndPrimaryKey params;
                                  sp_startColumn := startColumn options;
                                  sp_endColumn := endColumn options;
                                  sp_limit := limit options |} in
                             sthen (SCall params SRet)
                               (fun data => SRet (Data.rows data))
                         | None => SRet []
                         end))
                 (fun rows => SRet (map parseDataToRow rows))))).

(** ** Reading the code's behaviour *)

(** An ordinary object: it inherits from [Object.prototype] and has no
    property of its own named [hasOwnProperty]. *)
Definition ordinary (o : jsobject) : Prop :=
  proto o = ObjectPrototype /\ hasOwnProperty (own o) "hasOwnProperty" = false.

(** An argument that is falsy or an ordinary object. *)
Definition ordinary_arg (a : arg jsobject) : Prop :=
  match a with
  | Falsy _ => True
  | Ref o => ordinary o
  end.

(** The own properties of the row that an argument stands for. *)
Definition fields_of (a : arg jsobject) : object :=
  match a with
  | Falsy _ => []
  | Ref o => own o
  end.

(** What one descriptor contributes to the primary key of a row with the
    own properties [fields]. *)
Definition key_entry (fields : object) (defaultValue : value)
    (item : PrimaryKeyDescriptor) : columns :=
  match obj_get fields (name item) with
  | Some v =>
      [(name item, if is_Long (type item) then Long_fromNumber (parseInt v) else v)]
  | None =>
      if is_undefined defaultValue then [] else [(name item, defaultValue)]
  end.

(** The primary key of those properties: the contributions of the
    descriptors, in schema order. *)
Definition key_of_fields (this : Table) (fields : object) (defaultValue : value)
    : columns :=
  flat_map (key_entry fields defaultValue) (primaryKeys this).

(** The fields that are not named like a descriptor. *)
Definition other_fields (this : Table) (fields : object) : columns :=
  filter (fun kv => negb (includes (map name (primaryKeys this)) (fst kv))) fields.

(** ** Writes *)

(** The parameters that a put or an insert of the properties [fields] is
    to send, under the row-existence expectation [expectation]. *)
Definition put_request (this : Table) (expectation : RowExistenceExpectation)
    (fields : object) : Params.t :=
  {| Params.tableName := Some (tableName this);
     Params.condition := mkCondition expectation;
     Params.primaryKey := key_of_fields this fields VUndefined;
     Params.updateOfAttributeColumns := None;
     Params.attributeColumns := Some (other_fields this fields);
     Params.returnContent := Some Primarykey;
     Params.type := None |}.

(** The parameters that a delete is to send. *)
Definition delete_request (this : Table) (fields : object) : Params.t :=
  {| Params.tableName := Some (tableName this);
     Params.condition := mkCondition IGNORE;
     Params.primaryKey := key_of_fields this fields VUndefined;
     Params.updateOfAttributeColumns := None;
     Params.attributeColumns := None;
     Params.returnContent := None;
     Params.type := None |}.

(** The parameters that an update is to send: the other fields under one
    [PUT] entry, as update columns and as attribute columns. *)
Definition update_request (this : Table) (fields : object) : Params.t :=
  let columns :=
    [("PUT", VArr (map (fun kv => VObj [kv]) (other_fields this fields)))] in
  {| Params.tableName := Some (tableName this);
     Params.condition := mkCondition EXPECT_EXIST;
     Params.primaryKey := key_of_fields this fields VUndefined;
     Params.updateOfAttributeColumns := Some columns;
     Params.attributeColumns := Some columns;
     Params.returnContent := Some Primarykey;
     Params.type := None |}.

(** An object on which [hasOwnProperty] cannot be called. *)
Definition not_callable (o : jsobject) : Prop :=
  hasOwnProperty (own o) "hasOwnProperty" = true \/ proto o = NullPrototype.

(** ** The round trip through the put parameters *)

(** How a value is encoded in the parameters under a descriptor of type
    [ty]. *)
Definition key_encoding (ty : KeyType) (v : value) : value :=
  if is_Long ty then Long_fromNumber (parseInt v) else v.

(** What the field [k] of a row holds after the row went through the put
    parameters and back. *)
Definition stored (this : Table) (k : string) (v : value) : value :=
  match key_type_of (primaryKeys this) k with
  | Some ty => key_encoding ty v
  | None => v
  end.

(** ** The batch translator *)

(** The operation that an upper-cased key names, if any. *)
Definition kind_of_op (op : string) : option OpKind :=
  if String.eqb op "PUT" then Some OpPut
  else if String.eqb op "INSERT" then Some OpInsert
  else if String.eqb op "UPDATE" then Some OpUpdate
  else if String.eqb op "DELETE" then Some OpDelete
  else None.

(** The rows that an entry of the operation map lists: those of its array,
    and none when its value is falsy. *)
Definition listed {A} (rows : arg (list A)) : list A :=
  match rows with
  | Ref rows => rows
  | Falsy _ => []
  end.

(** The batch item of a row with the properties [fields]: the parameters of
    the operation, without [tableName], tagged with the backend's operation
    type. *)
Definition batch_item (this : Table) (kind : OpKind) (fields : object)
    : Params.t :=
  let request :=
    match kind with
    | OpPut => put_request this IGNORE fields
    | OpInsert => put_request this EXPECT_NOT_EXIST fields
    | OpUpdate => update_request this fields
    | OpDelete => delete_request this fields
    end in
  {| Params.tableName := None;
     Params.condition := Params.condition request;
     Params.primaryKey := Params.primaryKey request;
     Params.updateOfAttributeColumns := Params.updateOfAttributeColumns request;
     Params.attributeColumns := Params.attributeColumns request;
     Params.returnContent := Params.returnContent request;
     Params.type :=
       Some match kind with
            | OpPut | OpInsert => "PUT"
            | OpUpdate => "UPDATE"
            | OpDelete => "DELETE"
            end |}.

(** The batch items that one entry of the operation map contributes. *)
Definition entry_items (this : Table)
    (entry : string * arg (list (arg jsobject))) : list Params.t :=
  match kind_of_op (toLocaleUpperCase (fst entry)) with
  | Some kind =>
      map (fun row => batch_item this kind (fields_of row)) (listed (snd entry))
  | None => []
  end.

(** Every row of the recognized entries is falsy or an ordinary object. *)
Definition ordinary_rows (obj : opMap) : Prop :=
  forall key rows row,
    In (key, rows) obj ->
    kind_of_op (toLocaleUpperCase key) <> None ->
    In row (listed rows) ->
    ordinary_arg row.

(** The backend calls that a call of the facade makes when it returns a
    promise; nothing when it throws or is not followed. *)
Definition calls {R} (c : called R) (be : backend) (s : state be)
    : option (list logged) :=
  match c with
  | Some (Returns p) => Some (snd (fst (run be p s)))
  | _ => None
  end.

(** ** select *)

(** The options that the caller gives, none of them when [options] is
    left out. *)
Definition given (options : option SelectOptions) : SelectOptions :=
  match options with
  | Some o => o
  | None => mkSelectOptions None None None None None
  end.

(** What the caller asks for: the page (the first one unless told), the
    page size (ten unless told), the row that holds the start of the range
    (an empty one unless told) and the column bounds (null unless told). *)
Definition asked_page (options : option SelectOptions) : J :=
  match so_page (given options) with Some p => p | None => one end.

Definition asked_limit (options : option SelectOptions) : J :=
  match so_limit (given options) with Some l => l | None => ten end.

Definition asked_where (options : option SelectOptions) : arg jsobject :=
  match so_where (given options) with
  | Some w => w
  | None => Ref (literal [])
  end.

Definition asked_startColumn (options : option SelectOptions) : value :=
  match so_startColumn (given options) with Some c => c | None => VNull end.

Definition asked_endColumn (options : option SelectOptions) : value :=
  match so_endColumn (given options) with Some c => c | None => VNull end.

(** The key that holds [bound] for every component. *)
Definition bound_key (this : Table) (bound : value) : columns :=
  map (fun item => (name item, bound)) (primaryKeys this).

(** The scan of the first page. *)
Definition first_page_scan (this : Table) (options : option SelectOptions)
    : ScanParams :=
  {| sp_tableName := tableName this;
     sp_direction := Store.FORWARD;
     sp_inclusiveStartPrimaryKey :=
       key_of_fields this (fields_of (asked_where options)) VInfMin;
     sp_exclusiveEndPrimaryKey := bound_key this VInfMax;
     sp_startColumn := asked_startColumn options;
     sp_endColumn := asked_endColumn options;
     sp_limit := asked_limit options |}.

(** The scan that skips the rows of the pages before the requested one. *)
Definition skip_scan (this : Table) (options : option SelectOptions)
    : ScanParams :=
  {| sp_tableName := tableName this;
     sp_direction := Store.FORWARD;
     sp_inclusiveStartPrimaryKey :=
       key_of_fields this (fields_of (asked_where options)) VInfMin;
     sp_exclusiveEndPrimaryKey := bound_key this VInfMax;
     sp_startColumn := VStr "_";
     sp_endColumn := VStr "__";
     sp_limit := offset (asked_page options) (asked_limit options) |}.

(** The scan of the requested page, from the continuation key [next]. *)
Definition page_scan (this : Table) (options : option SelectOptions)
    (next : list (string * value)) : ScanParams :=
  {| sp_tableName := tableName this;
     sp_direction := Store.FORWARD;
     sp_inclusiveStartPrimaryKey := next;
     sp_exclusiveEndPrimaryKey := bound_key this VInfMax;
     sp_startColumn := asked_startColumn options;
     sp_endColumn := asked_endColumn options;
     sp_limit := asked_limit options |}.

(** One scan, whose rows are the result. *)
Definition one_scan (be : scanner) (s : sstate be) (params : ScanParams)
    : outcome (list jsobject) * list ScanParams * sstate be :=
  match scan be params s with
  | (Ok data, s') =>
      (Resolved (map parseDataToRow (Data.rows data)), [params], s')
  | (Fail e, s') => (Rejected e, [params], s')
  end.

(** A skip scan, then nothing more when it comes back without a
    continuation key, and the scan of the page from that key otherwise. *)
Definition skip_then_scan (be : scanner) (s : sstate be)
    (skip : ScanParams) (page : list (string * value) -> ScanParams)
    : outcome (list jsobject) * list ScanParams * sstate be :=
  match scan be skip s with
  | (Fail e, s') => (Rejected e, [skip], s')
  | (Ok data, s') =>
      match Data.next_start_primary_key data with
      | None => (Resolved [], [skip], s')
      | Some next =>
          match scan be (page next) s' with
          | (Ok data', s'') =>
              (Resolved (map parseDataToRow (Data.rows data')),
               [skip; page next], s'')
          | (Fail e, s'') => (Rejected e, [skip; page next], s'')
          end
      end
  end.

(** A backend that answers every scan with the same rows and no
    continuation key. *)
Definition one_page (rows : list Data.row) : scanner :=
  {| sstate := unit;
     scan := fun _ s => (Ok (Data.mkRange rows None), s) |}.

(** ** getRange over the rows of a table *)

(** The order in which the backend keeps primary keys, and the rows of the
    table. *)
Variable precedes : columns -> columns -> bool.
Variable table_rows : list Data.row.

(** The primary key of a stored row. *)
Definition key_of (r : Data.row) : columns :=
  match Data.primaryKey r with
  | Some key => key
  | None => []
  end.

(** The rows of the table from the key [lo], included, to the key [hi],
    excluded. *)
Definition in_range (lo hi : columns) : list Data.row :=
  filter (fun r => negb (precedes (key_of r) lo) && precedes (key_of r) hi)
    table_rows.

(** What a backend that holds these rows answers to a forward scan: the
    first [limit] rows of the range and, when the range has more, the key
    of the next one as continuation key. *)
Definition serve (params : Store.RangeParams.t) : Data.range :=
  let found :=
    in_range (Store.RangeParams.inclusiveStartPrimaryKey params)
      (Store.RangeParams.exclusiveEndPrimaryKey params) in
  let limit := Z.to_nat (Store.RangeParams.limit params) in
  {| Data.rows := firstn limit found;
     Data.next_start_primary_key :=
       match skipn limit found with
       | r :: _ => Some (key_of r)
       | [] => None
       end |}.

(** A backend that holds these rows and nothing else. *)
Definition store_of_rows : backend :=
  {| state := unit;
     handle := fun X (c : Store.call X) (s : unit) =>
       match c in Store.call X return reply X * unit with
       | Store.putRow _ => (Ok VUndefined, s)
       | Store.deleteRow _ => (Ok VUndefined, s)
       | Store.updateRow _ => (Ok VUndefined, s)
       | Store.batchWriteRow _ => (Ok (Data.mkBatchWrite []), s)
       | Store.getRow _ => (Ok (Data.mkGet (Data.mkRow None None)), s)
       | Store.getRange params => (Ok (serve params), s)
       end |}.

(** The backend answers every scan from these rows. *)
Definition serves (be : backend) : Prop :=
  forall params (s : state be),
    exists s', handle be _ (Store.getRange params) s = (Ok (serve params), s').

(** The order is a strict weak order. *)
Definition strict_weak_order : Prop :=
  (forall a, precedes a a = false)
  /\ (forall a b c, precedes a b = true -> precedes b c = true -> precedes a c = true)
  /\ (forall a b c, precedes a c = true -> precedes a b = true \/ precedes b c = true).

(** The rows are kept in the order of their keys. *)
Definition in_key_order (rows : list Data.row) : Prop :=
  StronglySorted (fun r r' => precedes (key_of r) (key_of r') = true) rows.

(** A key of the schema: a component for every descriptor, in schema order,
    each of them a value that its encoding leaves as it is. *)
Definition key_of_schema (this : Table) (key : columns) : Prop :=
  map fst key = map name (primaryKeys this)
  /\ forall item v,
       In item (primaryKeys this) ->
       In (name item, v) key ->
       key_encoding (type item) v = v.

(** A schema whose names are distinct and are neither [__proto__] nor
    [hasOwnProperty]. *)
Definition plain_schema (this : Table) : Prop :=
  NoDup (map name (primaryKeys this))
  /\ ~ In "__proto__" (map name (primaryKeys this))
  /\ ~ In "hasOwnProperty" (map name (primaryKeys this)).

(** What a call that returns a promise comes to against a backend: the
    outcome of the promise and the number of backend calls it makes; nothing
    when the call throws. *)
Definition settled {R} (c : checked (prog R)) (be : backend) (s : state be)
    : option (outcome R * nat) :=
  match c with
  | Returns p => let '(o, log, _) := run be p s in Some (o, List.length log)
  | Throws _ => None
  end.

(** The number of scans that reading [n] rows five at a time takes. *)
Definition scans_for (n : nat) : nat := S ((n - 1) / 5).

(** * Properties on arbitrary rows *)

(** ** Loops and calls that may throw *)

Lemma forEachM_returns {A S} (f : S -> A -> checked S) (g : S -> A -> S)
    (l : list A) (st : S) :
  (forall s x, f s x = Returns (g s x)) ->
  forEachM l f st = Returns (forEach l g st).
Proof.
  intros E. unfold forEach. revert st.
  induction l as [|x l IH]; intros st; simpl; [reflexivity|].
  rewrite E. simpl. apply IH.
Qed.

Lemma forEachM_throws {A S} (f : S -> A -> checked S) (e : error)
    (l : list A) (st : S) :
  l <> [] ->
  (forall s x, f s x = Throws e) ->
  forEachM l f st = Throws e.
Proof.
  intros Hl E. destruct l as [|x l]; [contradiction|].
  simpl. now rewrite E.
Qed.

Lemma resolve_ordinary (o : jsobject) :
  ordinary o -> resolve_hasOwnProperty o = Builtin.
Proof.
  intros [Hp Hown]. unfold resolve_hasOwnProperty. now rewrite Hown, Hp.
Qed.

Lemma resolve_or_literal (a : arg jsobject) :
  ordinary_arg a -> resolve_hasOwnProperty (or_literal a) = Builtin.
Proof.
  destruct a as [f|o]; simpl; [reflexivity | apply resolve_ordinary].
Qed.

Lemma own_or_literal (a : arg jsobject) : own (or_literal a) = fields_of a.
Proof. now destruct a. Qed.

Lemma resolve_not_callable (o : jsobject) :
  hasOwnProperty (own o) "hasOwnProperty" = true \/ proto o = NullPrototype ->
  resolve_hasOwnProperty o = NotCallable.
Proof.
  unfold resolve_hasOwnProperty. intros [H|H].
  - now rewrite H.
  - rewrite H. now destruct (hasOwnProperty (own o) "hasOwnProperty").
Qed.

(** ** The primary key of a row *)

Lemma parseRowToPrimaryKey_returns (this : Table) (row : arg jsobject)
    (dv : value) :
  resolve_hasOwnProperty (or_literal row) = Builtin ->
  parseRowToPrimaryKey this row dv
  = Returns (key_of_fields this (fields_of row) dv).
Proof.
  intros Hres. unfold parseRowToPrimaryKey, key_of_fields.
  rewrite (forEachM_returns _
             (fun arr item => arr ++ key_entry (fields_of row) dv item)).
  - now rewrite forEach_push_flat_map.
  - intros arr item. unfold call_hasOwnProperty. rewrite Hres. simpl.
    rewrite own_or_literal.
    unfold key_entry, hasOwnProperty, get_prop, push.
    destruct (obj_get (fields_of row) (name item)); simpl.
    + reflexivity.
    + destruct (is_undefined dv); simpl; [now rewrite app_nil_r | reflexivity].
Qed.

Lemma parseRowToPrimaryKey_throws (this : Table) (row : arg jsobject)
    (dv : value) :
  resolve_hasOwnProperty (or_literal row) = NotCallable ->
  primaryKeys this <> [] ->
  parseRowToPrimaryKey this row dv = Throws TypeError.
Proof.
  intros Hres Hpk. unfold parseRowToPrimaryKey.
  apply forEachM_throws; [assumption|].
  intros arr item. unfold call_hasOwnProperty. now rewrite Hres.
Qed.

Lemma parseRowToPrimaryKey_no_key (this : Table) (row : arg jsobject)
    (dv : value) :
  primaryKeys this = [] -> parseRowToPrimaryKey this row dv = Returns [].
Proof. unfold parseRowToPrimaryKey. now intros ->. Qed.

Lemma key_entry_names (fields : object) (dv : value)
    (item : PrimaryKeyDescriptor) :
  map fst (key_entry fields dv item)
  = if hasOwnProperty fields (name item) || negb (is_undefined dv)
    then [name item] else [].
Proof.
  unfold key_entry, hasOwnProperty.
  destruct (obj_get fields (name item)); simpl; [reflexivity|].
  now destruct (is_undefined dv).
Qed.

Lemma key_of_fields_keys (this : Table) (fields : object) (dv : value) :
  map fst (key_of_fields this fields dv)
  = filter (fun k => hasOwnProperty fields k || negb (is_undefined dv))
      (map name (primaryKeys this)).
Proof.
  unfold key_of_fields.
  induction (primaryKeys this) as [|item pks IH]; simpl; [reflexivity|].
  rewrite map_app, IH, key_entry_names.
  now destruct (hasOwnProperty fields (name item) || negb (is_undefined dv)).
Qed.

Lemma key_of_fields_In (this : Table) (fields : object) (dv : value)
    (k : string) (v : value) :
  In (k, v) (key_of_fields this fields dv) <->
  exists item, In item (primaryKeys this)
               /\ In (k, v) (key_entry fields dv item).
Proof. unfold key_of_fields. now rewrite in_flat_map. Qed.

Lemma key_of_fields_omits (this : Table) (fields : object) (k : string) :
  hasOwnProperty fields k = false ->
  ~ In k (map fst (key_of_fields this fields VUndefined)).
Proof.
  intros Habs. rewrite key_of_fields_keys, filter_In. simpl.
  rewrite Habs. intros [_ H]. discriminate.
Qed.

Lemma key_of_fields_complete (this : Table) (fields : object) (dv : value) :
  dv <> VUndefined ->
  map fst (key_of_fields this fields dv) = map name (primaryKeys this).
Proof.
  intros Hdv. rewrite key_of_fields_keys.
  apply filter_id_iff. apply forallb_forall. intros k _.
  destruct (is_undefined dv) eqn:E.
  - apply is_undefined_true in E. contradiction.
  - apply orb_true_r.
Qed.


(** ** validateRow *)

Lemma validateRow_returns (this : Table) (o : jsobject) :
  resolve_hasOwnProperty o = Builtin ->
  validateRow this (Ref o)
  = Returns (forallb (fun item => hasOwnProperty (own o) (name item))
               (primaryKeys this)).
Proof.
  intros Hres. unfold validateRow.
  rewrite (forEachM_returns _
             (fun result item =>
                if negb (hasOwnProperty (own o) (name item)) then false
                else result)).
  - f_equal. unfold forEach.
    assert (G : forall l b,
               fold_left
                 (fun result item =>
                    if negb (hasOwnProperty (own o) (name item)) then false
                    else result) l b
               = b && forallb (fun item => hasOwnProperty (own o) (name item)) l).
    { induction l as [|item l IH]; intros b; simpl.
      - now rewrite andb_true_r.
      - rewrite IH. destruct (hasOwnProperty (own o) (name item)), b; reflexivity. }
    now rewrite G.
  - intros result item. unfold call_hasOwnProperty. rewrite Hres. simpl.
    now destruct (hasOwnProperty (own o) (name item)).
Qed.


(** ** Integer-typed key components *)

(** C5, as the code has it.  A key component that an ordinary row holds and
    whose descriptor has the type [Store.Long] is emitted as
    [Store.Long.fromNumber(parseInt(value))]; when the value is not numeric,
    so that [parseInt] gives [NaN], the conversion does not fail: it returns
    a key in which the component is [Store.Long.fromNumber(NaN)]. *)
Theorem parseRowToPrimaryKey_long_component
    (this : Table) (o : jsobject) (defaultValue : value)
    (item : PrimaryKeyDescriptor) (v : value) :
  ordinary o ->
  In item (primaryKeys this) ->
  type item = TLong ->
  obj_get (own o) (name item) = Some v ->
  exists key,
    parseRowToPrimaryKey this (Ref o) defaultValue = Returns key
    /\ In (name item, Long_fromNumber (parseInt v)) key
    /\ (parseInt v = NaN -> In (name item, Long_fromNumber NaN) key).
Proof.
  intros Hord Hin Hty Hget. eexists. split.
  { apply parseRowToPrimaryKey_returns. simpl. now apply resolve_ordinary. }
  assert (H : In (name item, Long_fromNumber (parseInt v))
                (key_of_fields this (own o) defaultValue)).
  { apply key_of_fields_In. exists item. split; [assumption|].
    unfold key_entry. rewrite Hget, Hty. now left. }
  split; [exact H|]. intros E. now rewrite E in H.
Qed.

(** ** Writes *)

Lemma for_in_ordinary (row : arg jsobject) :
  ordinary_arg row -> for_in row = Some (fields_of row).
Proof.
  destruct row as [f|o]; simpl; [reflexivity|].
  intros [Hp _]. now rewrite Hp.
Qed.

Lemma parseRowToAttributeColumns_other_fields (this : Table)
    (row : arg jsobject) :
  ordinary_arg row ->
  parseRowToAttributeColumns this row
  = Some (other_fields this (fields_of row)).
Proof.
  intros Hord. unfold parseRowToAttributeColumns, other_fields.
  rewrite (for_in_ordinary row Hord). apply f_equal.
  rewrite (forEach_ext _
             (fun arr kv =>
                arr ++ if negb (includes (map name (primaryKeys this)) (fst kv))
                       then [kv] else [])).
  - rewrite forEach_push_flat_map. simpl.
    generalize (fields_of row). intros l.
    induction l as [|kv l IH]; simpl; [reflexivity|].
    rewrite IH.
    now destruct (negb (includes (map name (primaryKeys this)) (fst kv))).
  - intros arr [k v]. unfold push. simpl.
    destruct (includes (map name (primaryKeys this)) k); simpl;
      [now rewrite app_nil_r | reflexivity].
Qed.

Lemma buildPutRowParams_ordinary (this : Table) (row : arg jsobject)
    (expectation : RowExistenceExpectation) :
  ordinary_arg row ->
  buildPutRowParams this row (Some (mkCondition expectation))
  = Some (Returns (put_request this expectation (fields_of row))).
Proof.
  intros Hord. unfold buildPutRowParams.
  rewrite parseRowToPrimaryKey_returns by now apply resolve_or_literal.
  now rewrite parseRowToAttributeColumns_other_fields.
Qed.

Lemma buildPutRowParams_default (this : Table) (row : arg jsobject) :
  buildPutRowParams this row None
  = buildPutRowParams this row (Some (mkCondition IGNORE)).
Proof. reflexivity. Qed.

Lemma buildInsertRowParams_ordinary (this : Table) (row : arg jsobject) :
  ordinary_arg row ->
  buildInsertRowParams this row None
  = Some (Returns (put_request this EXPECT_NOT_EXIST (fields_of row))).
Proof. intros Hord. now apply buildPutRowParams_ordinary. Qed.

Lemma buildDeleteRowParams_ordinary (this : Table) (row : arg jsobject) :
  ordinary_arg row ->
  buildDeleteRowParams this row None
  = Some (Returns (delete_request this (fields_of row))).
Proof.
  intros Hord. unfold buildDeleteRowParams.
  now rewrite parseRowToPrimaryKey_returns by now apply resolve_or_literal.
Qed.

Lemma buildUpdateRowParams_ordinary (this : Table) (row : arg jsobject) :
  ordinary_arg row ->
  buildUpdateRowParams this row None
  = Some (Returns (update_request this (fields_of row))).
Proof.
  intros Hord. unfold buildUpdateRowParams, parseRowToUpdateOfAttributeColumns.
  rewrite parseRowToPrimaryKey_returns by now apply resolve_or_literal.
  now rewrite parseRowToAttributeColumns_other_fields.
Qed.

Lemma builders_throw (this : Table) (o : jsobject) :
  not_callable o ->
  primaryKeys this <> [] ->
  buildPutRowParams this (Ref o) None = Some (Throws TypeError)
  /\ buildInsertRowParams this (Ref o) None = Some (Throws TypeError)
  /\ buildUpdateRowParams this (Ref o) None = Some (Throws TypeError)
  /\ buildDeleteRowParams this (Ref o) None = Some (Throws TypeError).
Proof.
  intros Hbad Hpk.
  assert (E : parseRowToPrimaryKey this (Ref o) VUndefined = Throws TypeError).
  { apply parseRowToPrimaryKey_throws; [|assumption].
    now apply resolve_not_callable. }
  unfold buildInsertRowParams, buildPutRowParams, buildUpdateRowParams,
    buildDeleteRowParams.
  now rewrite E.
Qed.

(** C6, as the code has it.  For an ordinary row that lacks a primary-key
    component, [put], [insert], [update] and [delete] raise no validation
    error: each returns a promise that issues the operation's one backend
    call, with that component left out of the primary key, and the outcome
    of the call is the outcome of the operation.  The only failure before
    the backend is reached is the [TypeError] that each of them throws,
    whatever the row holds, on an object that has a property of its own
    named [hasOwnProperty] or that inherits from nothing. *)
Theorem write_without_key_component_reaches_backend
    (this : Table) (o : jsobject) (item : PrimaryKeyDescriptor)
    (be : backend) (s : state be) :
  ordinary o ->
  In item (primaryKeys this) ->
  hasOwnProperty (own o) (name item) = false ->
  ~ In (name item) (map fst (key_of_fields this (own o) VUndefined))
  /\ (exists p,
        put this (Ref o) = Some (Returns p)
        /\ run be p s
           = after_call be s (Store.putRow (put_request this IGNORE (own o)))
               (fun _ => Ref o))
  /\ (exists p,
        insert this (Ref o) = Some (Returns p)
        /\ run be p s
           = after_call be s
               (Store.putRow (put_request this EXPECT_NOT_EXIST (own o)))
               (fun _ => Ref o))
  /\ (exists p,
        update this (Ref o) = Some (Returns p)
        /\ run be p s
           = after_call be s (Store.updateRow (update_request this (own o)))
               (fun data => data))
  /\ (exists p,
        delete this (Ref o) = Some (Returns p)
        /\ run be p s
           = after_call be s (Store.deleteRow (delete_request this (own o)))
               (fun _ => Ref o))
  /\ (forall o',
        not_callable o' ->
        put this (Ref o') = Some (Throws TypeError)
        /\ insert this (Ref o') = Some (Throws TypeError)
        /\ update this (Ref o') = Some (Throws TypeError)
        /\ delete this (Ref o') = Some (Throws TypeError)).
Proof.
  intros Hord Hin Habs.
  split; [now apply key_of_fields_omits|].
  split; [|split; [|split; [|split]]].
  - eexists. split.
    + unfold put. simpl. rewrite buildPutRowParams_default.
      rewrite (buildPutRowParams_ordinary this (Ref o)) by exact Hord.
      reflexivity.
    + apply (run_call_then be s _ (fun _ => Ref o)).
  - eexists. split.
    + unfold insert. simpl.
      rewrite (buildInsertRowParams_ordinary this (Ref o)) by exact Hord.
      reflexivity.
    + apply (run_call_then be s _ (fun _ => Ref o)).
  - eexists. split.
    + unfold update. simpl.
      rewrite (buildUpdateRowParams_ordinary this (Ref o)) by exact Hord.
      reflexivity.
    + apply run_call.
  - eexists. split.
    + unfold delete. simpl.
      rewrite (buildDeleteRowParams_ordinary this (Ref o)) by exact Hord.
      reflexivity.
    + apply (run_call_then be s _ (fun _ => Ref o)).
  - intros o' Hbad.
    assert (Hpk : primaryKeys this <> []).
    { intros E. rewrite E in Hin. destruct Hin. }
    destruct (builders_throw this o' Hbad Hpk) as (E1 & E2 & E3 & E4).
    unfold put, insert, update, delete. simpl.
    now rewrite E1, E2, E3, E4.
Qed.

(** ** Objects as mappings, with the setter of [__proto__] *)

Lemma obj_get_app_absent (o : object) (k k' : string) (v : value) :
  hasOwnProperty o k = false ->
  obj_get (o ++ [(k, v)]) k'
  = if String.eqb k k' then Some v else obj_get o k'.
Proof.
  unfold hasOwnProperty.
  induction o as [|[k0 v0] o IH]; simpl; [reflexivity|].
  destruct (String.eqb k0 k) eqn:E0; [discriminate|].
  intros H. rewrite (IH H).
  destruct (String.eqb k0 k') eqn:E1; [|reflexivity].
  apply String.eqb_eq in E1. subst k0. now rewrite String.eqb_sym, E0.
Qed.

Lemma obj_get_insert_index (o : object) (i : N) (k k' : string) (v : value) :
  hasOwnProperty o k = false ->
  obj_get (insert_index o i k v) k'
  = if String.eqb k k' then Some v else obj_get o k'.
Proof.
  unfold hasOwnProperty.
  induction o as [|[k0 v0] o IH]; simpl; [reflexivity|].
  destruct (String.eqb k0 k) eqn:E0; [discriminate|].
  intros H.
  assert (G : obj_get ((k, v) :: (k0, v0) :: o) k'
              = if String.eqb k k' then Some v
                else if String.eqb k0 k' then Some v0 else obj_get o k')
    by reflexivity.
  destruct (array_index k0) as [j|]; [|exact G].
  destruct (j <? i)%N; [|exact G].
  simpl. rewrite (IH H).
  destruct (String.eqb k0 k') eqn:E1; [|reflexivity].
  apply String.eqb_eq in E1. subst k0. now rewrite String.eqb_sym, E0.
Qed.

Lemma obj_get_create_property (o : object) (k k' : string) (v : value) :
  hasOwnProperty o k = false ->
  obj_get (create_property o k v) k'
  = if String.eqb k k' then Some v else obj_get o k'.
Proof.
  intros H. unfold create_property.
  destruct (array_index k);
    [now apply obj_get_insert_index | now apply obj_get_app_absent].
Qed.

Lemma obj_get_define_own (o : jsobject) (k k' : string) (v : value) :
  obj_get (own (define_own o k v)) k'
  = if String.eqb k k' then Some v else obj_get (own o) k'.
Proof.
  unfold define_own. destruct (hasOwnProperty (own o) k) eqn:E; simpl.
  - apply obj_get_obj_set.
  - now apply obj_get_create_property.
Qed.

Lemma own_set_prototype (o : jsobject) (v : value) :
  own (set_prototype o v) = own o.
Proof. unfold set_prototype. destruct v; reflexivity. Qed.

(** An assignment changes what is read under the assigned name and nothing
    else, except that under [__proto__] it may change nothing at all. *)
Lemma obj_get_js_set (o : jsobject) (k k' : string) (v : value) :
  k' <> "__proto__" ->
  obj_get (own (js_set o k v)) k'
  = if String.eqb k k' then Some v else obj_get (own o) k'.
Proof.
  intros Hk. unfold js_set.
  destruct (hasOwnProperty (own o) k); [apply obj_get_define_own|].
  destruct (String.eqb k "__proto__") eqn:E; simpl;
    [|apply obj_get_define_own].
  destruct (inherits_proto_accessor o); simpl; [|apply obj_get_define_own].
  rewrite own_set_prototype.
  apply String.eqb_eq in E. subst k.
  destruct (String.eqb "__proto__" k') eqn:E'; [|reflexivity].
  apply String.eqb_eq in E'. congruence.
Qed.

Lemma js_set_plain (o : jsobject) (k : string) (v : value) :
  k <> "__proto__" -> js_set o k v = define_own o k v.
Proof.
  intros Hk. unfold js_set.
  destruct (hasOwnProperty (own o) k); [reflexivity|].
  destruct (String.eqb k "__proto__") eqn:E; [|reflexivity].
  apply String.eqb_eq in E. contradiction.
Qed.

Lemma proto_define_own (o : jsobject) (k : string) (v : value) :
  proto (define_own o k v) = proto o.
Proof. unfold define_own. now destruct (hasOwnProperty (own o) k). Qed.

(** Merging single-property objects into [o]: under every name but
    [__proto__], the last one of the name wins. *)
Lemma obj_get_assign_each (l : columns) (o : jsobject) (k : string) :
  k <> "__proto__" ->
  obj_get (own (forEach l assign1 o)) k
  = match last_assigned l k with
    | Some v => Some v
    | None => obj_get (own o) k
    end.
Proof.
  intros Hk. unfold forEach. revert o.
  induction l as [|[k1 v1] l IH]; intros o; simpl; [reflexivity|].
  rewrite IH. destruct (last_assigned l k); [reflexivity|].
  unfold assign1. simpl. rewrite obj_get_js_set by assumption.
  now destruct (String.eqb k1 k).
Qed.

(** Merging objects none of which is named [__proto__] leaves the prototype
    as it is, and what is read under [__proto__] too. *)
Lemma assign_each_plain (l : columns) (o : jsobject) :
  ~ In "__proto__" (map fst l) ->
  proto (forEach l assign1 o) = proto o
  /\ obj_get (own (forEach l assign1 o)) "__proto__"
     = obj_get (own o) "__proto__".
Proof.
  unfold forEach. revert o.
  induction l as [|[k1 v1] l IH]; intros o Hn; simpl; [now split|].
  simpl in Hn.
  assert (Hk : k1 <> "__proto__") by (intros E; apply Hn; now left).
  destruct (IH (assign1 o (k1, v1))) as [Hp Hg];
    [intros H; apply Hn; now right|].
  rewrite Hp, Hg. unfold assign1. simpl.
  rewrite js_set_plain by exact Hk.
  rewrite proto_define_own, obj_get_define_own.
  split; [reflexivity|].
  destruct (String.eqb k1 "__proto__") eqn:E; [|reflexivity].
  apply String.eqb_eq in E. contradiction.
Qed.

(** ** The round trip through the put parameters *)

Lemma last_assigned_key_entry (fields : object) (item : PrimaryKeyDescriptor)
    (k : string) :
  last_assigned (key_entry fields VUndefined item) k
  = if String.eqb (name item) k
    then option_map (key_encoding (type item)) (obj_get fields k)
    else None.
Proof.
  unfold key_entry, key_encoding.
  destruct (String.eqb (name item) k) eqn:E.
  - apply String.eqb_eq in E. subst k.
    destruct (obj_get fields (name item)); simpl; [|reflexivity].
    now rewrite String.eqb_refl.
  - destruct (obj_get fields (name item)); simpl; [|reflexivity].
    now rewrite E.
Qed.

Lemma last_assigned_key_of_fields (this : Table) (fields : object)
    (k : string) :
  last_assigned (key_of_fields this fields VUndefined) k
  = match key_type_of (primaryKeys this) k with
    | Some ty => option_map (key_encoding ty) (obj_get fields k)
    | None => None
    end.
Proof.
  unfold key_of_fields.
  induction (primaryKeys this) as [|item pks IH]; simpl; [reflexivity|].
  rewrite last_assigned_app, IH, last_assigned_key_entry.
  destruct (key_type_of pks k) as [ty|].
  - destruct (obj_get fields k); simpl; [reflexivity|].
    now destruct (String.eqb (name item) k).
  - now destruct (String.eqb (name item) k).
Qed.

Lemma last_assigned_put_request (this : Table) (fields : object) (k : string) :
  NoDup (map fst fields) ->
  last_assigned
    (key_of_fields this fields VUndefined ++ other_fields this fields) k
  = option_map (stored this k) (obj_get fields k).
Proof.
  intros Hnd. unfold stored, other_fields.
  rewrite last_assigned_app.
  rewrite (last_assigned_filter
             (fun key => negb (includes (map name (primaryKeys this)) key))).
  rewrite key_type_of_includes, last_assigned_key_of_fields.
  rewrite (last_assigned_NoDup fields k Hnd).
  destruct (key_type_of (primaryKeys this) k) as [ty|]; simpl;
    now destruct (obj_get fields k).
Qed.

Lemma parseParamsToRow_put_request (this : Table) (fields : object)
    (expectation : RowExistenceExpectation) :
  parseParamsToRow (put_request this expectation fields)
  = forEach (key_of_fields this fields VUndefined ++ other_fields this fields)
      assign1 (literal []).
Proof.
  unfold parseParamsToRow, forEach. simpl. now rewrite fold_left_app.
Qed.

Lemma put_request_names (this : Table) (fields : object) (k : string) :
  In k (map fst (key_of_fields this fields VUndefined
                 ++ other_fields this fields)) ->
  hasOwnProperty fields k = true.
Proof.
  rewrite map_app, in_app_iff, key_of_fields_keys, filter_In.
  intros [[_ H]|H].
  - simpl in H. now rewrite orb_false_r in H.
  - unfold other_fields in H. apply in_map_iff in H.
    destruct H as ([k' v] & <- & H). apply filter_In in H.
    destruct H as [H _]. simpl. unfold hasOwnProperty.
    destruct (obj_get fields k') eqn:E; [reflexivity|].
    exfalso. clear -H E.
    induction fields as [|[k0 v0] fields IH]; simpl in *; [assumption|].
    destruct (String.eqb k0 k') eqn:E0; [discriminate|].
    destruct H as [H|H]; [|now apply IH].
    inversion H; subst. now rewrite String.eqb_refl in E0.
Qed.

Lemma roundtrip_lookup_but_proto (this : Table) (fields : object) (k : string)
    (expectation : RowExistenceExpectation) :
  NoDup (map fst fields) ->
  k <> "__proto__" ->
  obj_get (own (parseParamsToRow (put_request this expectation fields))) k
  = option_map (stored this k) (obj_get fields k).
Proof.
  intros Hnd Hk.
  rewrite parseParamsToRow_put_request, obj_get_assign_each by assumption.
  rewrite last_assigned_put_request by assumption.
  now destruct (obj_get fields k).
Qed.

(** C4, as the code has it.  An ordinary row that holds every primary-key
    component comes back from the put parameters with its fields, under
    every name but [__proto__]; each field holds its original value, except
    that a field whose descriptor has the type [Store.Long] holds
    [Store.Long.fromNumber(parseInt(value))].  A row that has no field named
    [__proto__] comes back as an object that inherits from
    [Object.prototype], with these fields and no other.  When no descriptor
    has the type [Store.Long], every field but [__proto__] comes back with
    its original value. *)
Theorem put_params_roundtrip (this : Table) (o : jsobject) :
  ordinary o ->
  NoDup (map fst (own o)) ->
  validateRow this (Ref o) = Returns true ->
  exists params,
    buildPutRowParams this (Ref o) None = Some (Returns params)
    /\ (forall k,
          k <> "__proto__" ->
          obj_get (own (parseParamsToRow params)) k
          = option_map (stored this k) (obj_get (own o) k))
    /\ (hasOwnProperty (own o) "__proto__" = false ->
        proto (parseParamsToRow params) = ObjectPrototype
        /\ forall k,
             obj_get (own (parseParamsToRow params)) k
             = option_map (stored this k) (obj_get (own o) k))
    /\ ((forall item, In item (primaryKeys this) -> type item <> TLong) ->
        forall k,
          k <> "__proto__" ->
          obj_get (own (parseParamsToRow params)) k = obj_get (own o) k).
Proof.
  intros Hord Hnd _. eexists. split.
  { rewrite buildPutRowParams_default.
    apply (buildPutRowParams_ordinary this (Ref o)). exact Hord. }
  simpl. split; [|split].
  - intros k Hk. now apply roundtrip_lookup_but_proto.
  - intros Hown.
    assert (Hn : ~ In "__proto__"
                   (map fst (key_of_fields this (own o) VUndefined
                             ++ other_fields this (own o)))).
    { intros H. apply put_request_names in H. congruence. }
    destruct (assign_each_plain _ (literal []) Hn) as [Hp Hg].
    rewrite (parseParamsToRow_put_request this (own o) IGNORE).
    split; [exact Hp|].
    intros k. destruct (String.eqb k "__proto__") eqn:E.
    + apply String.eqb_eq in E. subst k. rewrite Hg.
      unfold hasOwnProperty in Hown.
      now destruct (obj_get (own o) "__proto__").
    + rewrite <- (parseParamsToRow_put_request this (own o) IGNORE).
      apply roundtrip_lookup_but_proto; [assumption|].
      intros ->. discriminate.
  - intros Hty k Hk. rewrite roundtrip_lookup_but_proto by assumption.
    destruct (obj_get (own o) k) as [v|]; simpl; [|reflexivity].
    unfold stored, key_encoding.
    destruct (key_type_of (primaryKeys this) k) as [ty|] eqn:E; [|reflexivity].
    destruct (key_type_of_In _ _ _ E) as (item & Hin & <-).
    specialize (Hty item Hin). now destruct (type item).
Qed.

(** ** The batch translator *)

Lemma forEachB_returns {A S} (f : S -> A -> built S) (g : S -> A -> S)
    (l : list A) (st : S) :
  (forall s x, In x l -> f s x = Some (Returns (g s x))) ->
  forEachB l f st = Some (Returns (forEach l g st)).
Proof.
  unfold forEach. revert st.
  induction l as [|x l IH]; intros st E; simpl; [reflexivity|].
  rewrite E by now left. apply IH. intros s y Hy. apply E. now right.
Qed.

Lemma pushBatchItem_by_op (this : Table) (op : string)
    (writeRows : list Params.t) (row : arg jsobject) :
  (kind_of_op op <> None -> ordinary_arg row) ->
  pushBatchItem this op writeRows row
  = Some (Returns
            (writeRows
             ++ match kind_of_op op with
                | Some kind => [batch_item this kind (fields_of row)]
                | None => []
                end)).
Proof.
  unfold pushBatchItem, kind_of_op, push. intros Hord.
  destruct (String.eqb op "PUT").
  { rewrite buildPutRowParams_default, buildPutRowParams_ordinary;
      [reflexivity | apply Hord; discriminate]. }
  destruct (String.eqb op "INSERT").
  { rewrite buildInsertRowParams_ordinary;
      [reflexivity | apply Hord; discriminate]. }
  destruct (String.eqb op "UPDATE").
  { rewrite buildUpdateRowParams_ordinary;
      [reflexivity | apply Hord; discriminate]. }
  destruct (String.eqb op "DELETE").
  { rewrite buildDeleteRowParams_ordinary;
      [reflexivity | apply Hord; discriminate]. }
  now rewrite app_nil_r.
Qed.

Lemma forEachB_pushBatchItem (this : Table) (key : string)
    (rows : list (arg jsobject)) (writeRows : list Params.t) :
  (kind_of_op (toLocaleUpperCase key) <> None ->
   forall row, In row rows -> ordinary_arg row) ->
  forEachB rows (pushBatchItem this (toLocaleUpperCase key)) writeRows
  = Some (Returns (writeRows ++ entry_items this (key, Ref rows))).
Proof.
  intros Hord.
  rewrite (forEachB_returns _
             (fun writeRows row =>
                writeRows
                ++ match kind_of_op (toLocaleUpperCase key) with
                   | Some kind => [batch_item this kind (fields_of row)]
                   | None => []
                   end)).
  - rewrite forEach_push_flat_map. do 3 f_equal.
    unfold entry_items. simpl.
    clear Hord.
    destruct (kind_of_op (toLocaleUpperCase key)) as [kind|];
      induction rows as [|r rs IH]; simpl; congruence.
  - intros s row Hin. apply pushBatchItem_by_op.
    intros H. now apply Hord.
Qed.

Lemma batch_list_by_entries (this : Table) (obj : opMap) :
  ordinary_rows obj ->
  parseObjectToBatchWriteRows this obj
  = Some (Returns (flat_map (entry_items this) obj)).
Proof.
  intros Hord. unfold parseObjectToBatchWriteRows.
  rewrite (forEachB_returns _
             (fun writeRows entry => writeRows ++ entry_items this entry)).
  - now rewrite forEach_push_flat_map.
  - intros writeRows [key rows] Hin. cbn [fst snd].
    destruct rows as [f|rows]; cbn [or_empty].
    + simpl. unfold entry_items. simpl.
      destruct (kind_of_op (toLocaleUpperCase key)); now rewrite app_nil_r.
    + destruct rows as [|row rows'].
      * simpl. unfold entry_items. simpl.
        destruct (kind_of_op (toLocaleUpperCase key)); now rewrite app_nil_r.
      * cbn [List.length Nat.eqb].
        apply forEachB_pushBatchItem.
        intros H r Hr. apply (Hord key (Ref (row :: rows')) r); assumption.
Qed.

Lemma ordinary_rows_without (before after : opMap)
    (entry : string * arg (list (arg jsobject))) :
  ordinary_rows (before ++ entry :: after) -> ordinary_rows (before ++ after).
Proof.
  intros H key rows row Hin. apply (H key rows row).
  apply in_app_iff in Hin. apply in_app_iff.
  destruct Hin as [Hin|Hin]; [now left | right; now right].
Qed.

Lemma kind_of_op_upper_ascii (key : string) :
  kind_of_op (upper_ascii key) = kind_of_label key.
Proof.
  unfold kind_of_op, kind_of_label.
  change "PUT" with (upper_ascii "put").
  change "INSERT" with (upper_ascii "insert").
  change "UPDATE" with (upper_ascii "update").
  change "DELETE" with (upper_ascii "delete").
  unfold upper_ascii. now rewrite !upper_eqb_same_label.
Qed.


(** ** select *)

Lemma key_of_fields_bound (this : Table) (bound : value) :
  bound <> VUndefined ->
  key_of_fields this [] bound = bound_key this bound.
Proof.
  intros Hb. unfold key_of_fields, bound_key.
  induction (primaryKeys this) as [|item pks IH]; simpl; [reflexivity|].
  rewrite IH. unfold key_entry. simpl.
  destruct (is_undefined bound) eqn:E; [|reflexivity].
  apply is_undefined_true in E. contradiction.
Qed.

Lemma select_defaults_asked (options : option SelectOptions) :
  select_defaults options
  = {| where_ := asked_where options;
       limit := asked_limit options;
       page := asked_page options;
       startColumn := asked_startColumn options;
       endColumn := asked_endColumn options |}.
Proof.
  destruct options as [[w l p sc ec]|]; [|reflexivity].
  unfold select_defaults, asked_where, asked_limit, asked_page,
    asked_startColumn, asked_endColumn, option_or. simpl.
  destruct w, l, p, sc, ec; reflexivity.
Qed.

Lemma map_pair_id {A B} (l : list (A * B)) :
  map (fun item => (fst item, snd item)) l = l.
Proof. induction l as [|[a b] l IH]; simpl; congruence. Qed.

Lemma select_on_page (this : Table) (options : option SelectOptions)
    (be : scanner) (s : sstate be) :
  ordinary_arg (asked_where options) ->
  exists p,
    select this options = Returns p
    /\ srun be p s
       = if is_one (if le_zero (asked_page options) then one
                    else asked_page options)
         then one_scan be s (first_page_scan this options)
         else
           skip_then_scan be s
             {| sp_tableName := tableName this;
                sp_direction := Store.FORWARD;
                sp_inclusiveStartPrimaryKey :=
                  key_of_fields this (fields_of (asked_where options)) VInfMin;
                sp_exclusiveEndPrimaryKey := bound_key this VInfMax;
                sp_startColumn := VStr "_";
                sp_endColumn := VStr "__";
                sp_limit :=
                  offset (if le_zero (asked_page options) then one
                          else asked_page options)
                    (asked_limit options) |}
             (page_scan this options).
Proof.
  intros Hord. unfold select. rewrite select_defaults_asked.
  cbn [where_ limit page startColumn endColumn].
  rewrite parseRowToPrimaryKey_returns by now apply resolve_or_literal.
  rewrite parseRowToPrimaryKey_returns by reflexivity.
  cbn [bind fields_of literal own].
  rewrite key_of_fields_bound by discriminate.
  eexists. split; [reflexivity|].
  unfold one_scan, skip_then_scan, first_page_scan, page_scan.
  destruct (is_one (if le_zero (asked_page options) then one
                    else asked_page options)); simpl.
  - destruct (scan be _ s) as [[data|e] s']; reflexivity.
  - destruct (scan be _ s) as [[data|e] s']; [|reflexivity].
    destruct (Data.next_start_primary_key data) as [next|]; [|reflexivity].
    simpl. rewrite map_pair_id.
    destruct (scan be _ s') as [[data'|e] s'']; reflexivity.
Qed.



(** *** Lists in order *)

Lemma sorted_filter {A} (R : A -> A -> Prop) (f : A -> bool) (l : list A) :
  StronglySorted R l -> StronglySorted R (filter f l).
Proof.
  induction 1 as [|a l Hs IH Hall]; simpl; [constructor|].
  destruct (f a); [|assumption].
  constructor; [assumption|].
  apply Forall_forall. intros x Hx. apply filter_In in Hx.
  rewrite Forall_forall in Hall. apply Hall. exact (proj1 Hx).
Qed.

Lemma sorted_app_inv {A} (R : A -> A -> Prop) (l1 : list A) (x : A)
    (l2 : list A) :
  StronglySorted R (l1 ++ x :: l2) ->
  Forall (fun a => R a x) l1 /\ Forall (R x) l2.
Proof.
  induction l1 as [|a l1 IH]; simpl; intros H;
    inversion H as [|? ? Hs Hall]; subst.
  - split; [constructor | assumption].
  - destruct (IH Hs) as [H1 H2]. split; [|assumption].
    constructor; [|assumption].
    rewrite Forall_forall in Hall. apply Hall.
    apply in_app_iff. right. now left.
Qed.

Lemma filter_none {A} (f : A -> bool) (l : list A) :
  (forall x, In x l -> f x = false) -> filter f l = [].
Proof.
  induction l as [|a l IH]; simpl; intros H; [reflexivity|].
  rewrite (H a) by now left. apply IH. intros x Hx. apply H. now right.
Qed.

Lemma filter_all {A} (f : A -> bool) (l : list A) :
  (forall x, In x l -> f x = true) -> filter f l = l.
Proof.
  induction l as [|a l IH]; simpl; intros H; [reflexivity|].
  rewrite (H a) by now left. f_equal. apply IH. intros x Hx. apply H. now right.
Qed.

Lemma filter_filter_and {A} (f g : A -> bool) (l : list A) :
  filter f (filter g l) = filter (fun x => g x && f x) l.
Proof.
  induction l as [|a l IH]; simpl; [reflexivity|].
  destruct (g a); simpl; [|assumption].
  destruct (f a); now rewrite IH.
Qed.

(** *** The range that is left after a page *)

Lemma in_range_sorted (lo hi : columns) :
  in_key_order table_rows -> in_key_order (in_range lo hi).
Proof. apply sorted_filter. Qed.

Lemma in_range_from_row (lo hi : columns) (page : list Data.row)
    (r : Data.row) (rest : list Data.row) :
  strict_weak_order ->
  in_key_order table_rows ->
  in_range lo hi = page ++ r :: rest ->
  in_range (key_of r) hi = r :: rest.
Proof.
  intros (Hirr & Htr & Hneg) Hsorted Hsplit.
  assert (Hr : In r (in_range lo hi)).
  { rewrite Hsplit. apply in_app_iff. right. now left. }
  apply filter_In in Hr. destruct Hr as [_ Hr].
  apply andb_true_iff in Hr. destruct Hr as [Hlo _].
  apply negb_true_iff in Hlo.
  assert (E : in_range (key_of r) hi
              = filter (fun x => negb (precedes (key_of x) (key_of r)))
                  (in_range lo hi)).
  { unfold in_range. rewrite filter_filter_and.
    apply filter_ext. intros x.
    destruct (precedes (key_of x) (key_of r)) eqn:Hx; simpl;
      [now rewrite andb_false_r|].
    destruct (precedes (key_of x) lo) eqn:Hxlo; simpl; [|now rewrite andb_true_r].
    destruct (Hneg _ (key_of r) _ Hxlo); congruence. }
  rewrite E, Hsplit.
  pose proof (in_range_sorted lo hi Hsorted) as Hs.
  rewrite Hsplit in Hs. apply sorted_app_inv in Hs. destruct Hs as [H1 H2].
  rewrite filter_app. rewrite filter_none.
  - simpl. rewrite Hirr. simpl. f_equal. apply filter_all.
    intros x Hx. rewrite Forall_forall in H2. specialize (H2 x Hx).
    apply negb_true_iff.
    destruct (precedes (key_of x) (key_of r)) eqn:Hxr; [|reflexivity].
    rewrite <- (Hirr (key_of r)). symmetry. now apply (Htr _ (key_of x)).
  - intros x Hx. rewrite Forall_forall in H1. now rewrite (H1 x Hx).
Qed.

(** *** The start row after a continuation key *)

Lemma obj_get_In_NoDup (l : columns) (k : string) (v : value) :
  NoDup (map fst l) -> In (k, v) l -> obj_get l k = Some v.
Proof.
  induction l as [|[k0 v0] l IH]; simpl; [contradiction|].
  intros Hnd [H|H]; inversion Hnd as [|? ? Hnin Hnd']; subst.
  - inversion H; subst. now rewrite String.eqb_refl.
  - destruct (String.eqb k0 k) eqn:E; [|now apply IH].
    apply String.eqb_eq in E. subst k0. exfalso. apply Hnin.
    apply in_map_iff. now exists (k, v).
Qed.

Lemma key_of_fields_is_key (fields : object) (dv : value)
    (pks : list PrimaryKeyDescriptor) (key : columns) :
  map fst key = map name pks ->
  (forall item v,
     In item pks -> In (name item, v) key ->
     obj_get fields (name item) = Some v /\ key_encoding (type item) v = v) ->
  flat_map (key_entry fields dv) pks = key.
Proof.
  revert key. induction pks as [|item pks IH]; intros [|[k v] key]; simpl;
    try discriminate; [reflexivity|].
  intros Hn H. inversion Hn; subst k.
  destruct (H item v) as [Hget Henc]; [now left | now left |].
  unfold key_entry at 1. rewrite Hget. unfold key_encoding in Henc.
  rewrite Henc. simpl. f_equal. apply IH; [assumption|].
  intros i w Hi Hw. apply H; now right.
Qed.

Lemma start_row_after (this : Table) (o : jsobject) (next : columns)
    (dv : value) :
  plain_schema this ->
  key_of_schema this next ->
  ordinary o ->
  ordinary (forEach next assign1 o)
  /\ key_of_fields this (own (forEach next assign1 o)) dv = next.
Proof.
  intros (Hnd & Hproto & Hhas) (Hnames & Henc) (Hp & Hown).
  assert (Hget : forall k,
             k <> "__proto__" ->
             obj_get (own (forEach next assign1 o)) k
             = match obj_get next k with
               | Some v => Some v
               | None => obj_get (own o) k
               end).
  { intros k Hk. rewrite obj_get_assign_each by assumption.
    rewrite last_assigned_NoDup; [reflexivity|]. now rewrite Hnames. }
  split; [split|].
  - destruct (assign_each_plain next o) as [H _]; [now rewrite Hnames|].
    now rewrite H.
  - unfold hasOwnProperty. rewrite Hget by discriminate.
    rewrite <- (last_assigned_NoDup next) by now rewrite Hnames.
    rewrite last_assigned_not_in by now rewrite Hnames.
    exact Hown.
  - apply key_of_fields_is_key; [assumption|].
    intros item v Hi Hv. split; [|now apply Henc].
    rewrite Hget.
    + rewrite (obj_get_In_NoDup next _ v); [reflexivity| |assumption].
      now rewrite Hnames.
    + intros E. apply Hproto. rewrite <- E. now apply in_map.
Qed.

Lemma advance_object (o : jsobject) (next : columns) :
  advance (Ref o) next = Returns (Ref (forEach next assign1 o)).
Proof. destruct next; reflexivity. Qed.

Lemma getRange_without_options (fuel : nat) (this : Table) (startRow : arg jsobject)
    (endRow : EndRow) :
  getRange fuel this startRow endRow None
  = getRange fuel this startRow endRow
      (Some (mkRangeOptions VUndefined VUndefined (Some []))).
Proof. destruct fuel; reflexivity. Qed.

Lemma scans_for_page (n : nat) : n <= 5 -> scans_for n = 1.
Proof.
  intros H. unfold scans_for. rewrite Nat.div_small; [reflexivity | lia].
Qed.

Lemma scans_for_more (n : nat) : 0 < n -> scans_for (5 + n) = S (scans_for n).
Proof.
  intros H. unfold scans_for.
  replace (5 + n - 1) with ((n - 1) + 1 * 5) by lia.
  rewrite Nat.div_add by discriminate. lia.
Qed.

Lemma getRange_from (this : Table) (e : arg jsobject) (be : backend) :
  strict_weak_order ->
  in_key_order table_rows ->
  (forall r, In r table_rows -> key_of_schema this (key_of r)) ->
  plain_schema this ->
  serves be ->
  ordinary_arg e ->
  forall (fuel : nat) (o : jsobject) (acc : list Data.row) (sc ec : value)
         (s : state be),
    ordinary o ->
    List.length
      (in_range (key_of_fields this (own o) VInfMin)
         (key_of_fields this (fields_of e) VInfMax)) < fuel ->
    exists p,
      getRange fuel this (Ref o) (Another e)
        (Some (mkRangeOptions sc ec (Some acc)))
      = Returns p
      /\ exists log s',
           run be p s
           = (Resolved
                (map parseDataToRow
                   (acc ++ in_range (key_of_fields this (own o) VInfMin)
                             (key_of_fields this (fields_of e) VInfMax))),
              log, s')
           /\ List.length log
              = scans_for
                  (List.length
                     (in_range (key_of_fields this (own o) VInfMin)
                        (key_of_fields this (fields_of e) VInfMax))).
Proof.
  intros Hswo Hsorted Hkeys Hschema Hbe He.
  induction fuel as [|fuel IH]; intros o acc sc ec s Ho Hlen; [lia|].
  cbn [getRange range_options_or]. unfold getRange_params. cbn [end_row].
  rewrite (parseRowToPrimaryKey_returns this (Ref o))
    by (simpl; now apply resolve_ordinary).
  rewrite (parseRowToPrimaryKey_returns this e) by now apply resolve_or_literal.
  cbn [bind fields_of ro_startColumn ro_endColumn ro___rows].
  set (lo := key_of_fields this (own o) VInfMin) in *.
  set (hi := key_of_fields this (fields_of e) VInfMax) in *.
  eexists. split; [reflexivity|].
  cbn [run].
  match goal with
  | |- context [handle be _ (Store.getRange ?params) s] =>
      destruct (Hbe params s) as [s1 Hs1]; rewrite Hs1
  end.
  unfold serve.
  cbn [Data.rows Data.next_start_primary_key
       Store.RangeParams.inclusiveStartPrimaryKey
       Store.RangeParams.exclusiveEndPrimaryKey Store.RangeParams.limit].
  change (Z.to_nat 5) with 5.
  pose proof (firstn_skipn 5 (in_range lo hi)) as Hsplit.
  destruct (skipn 5 (in_range lo hi)) as [|r rest] eqn:Hskip.
  - rewrite app_nil_r in Hsplit. rewrite Hsplit. cbn [run].
    eexists. eexists. split; [reflexivity|].
    rewrite scans_for_page; [reflexivity|].
    rewrite <- Hsplit. rewrite length_firstn. lia.
  - rewrite advance_object.
    assert (Hr : In r table_rows).
    { assert (H : In r (in_range lo hi)).
      { rewrite <- Hsplit. apply in_app_iff. right. now left. }
      apply filter_In in H. exact (proj1 H). }
    destruct (start_row_after this o (key_of r) VInfMin Hschema
                (Hkeys r Hr) Ho) as [Ho' Hlo'].
    assert (Hrange : in_range (key_of r) hi = r :: rest).
    { apply (in_range_from_row lo hi (firstn 5 (in_range lo hi)));
        [assumption | assumption | now symmetry]. }
    assert (Hfirst : List.length (firstn 5 (in_range lo hi)) = 5).
    { rewrite length_firstn.
      assert (H : List.length (skipn 5 (in_range lo hi)) <> 0)
        by (rewrite Hskip; discriminate).
      rewrite length_skipn in H. lia. }
    assert (Hlen' : List.length (in_range lo hi)
                    = 5 + List.length (r :: rest)).
    { rewrite <- Hsplit at 1. rewrite length_app, Hfirst. reflexivity. }
    destruct (IH (forEach (key_of r) assign1 o)
                (acc ++ firstn 5 (in_range lo hi)) sc ec s1 Ho')
      as (p' & Hp' & log' & s' & Hrun' & Hlog').
    { rewrite Hlo'. fold hi. rewrite Hrange. lia. }
    rewrite Hp'. rewrite Hrun'.
    eexists. eexists. split.
    + rewrite Hlo'. fold hi. rewrite Hrange.
      rewrite <- app_assoc, Hsplit. reflexivity.
    + cbn [List.length]. rewrite Hlog', Hlo'. fold hi. rewrite Hrange.
      rewrite Hlen'. rewrite scans_for_more; [reflexivity|].
      simpl. lia.
Qed.


(** ** Complete keys *)

(** X1.  An ordinary row validates exactly when the primary key built from
    it without a fallback is complete: it names every descriptor of the
    schema, in order. *)
Theorem validateRow_iff_complete_key (this : Table) (o : jsobject) :
  ordinary o ->
  exists valid key,
    validateRow this (Ref o) = Returns valid
    /\ parseRowToPrimaryKey this (Ref o) VUndefined = Returns key
    /\ (valid = true <-> map fst key = map name (primaryKeys this)).
Proof.
  intros Hord. eexists. eexists.
  split; [apply validateRow_returns; now apply resolve_ordinary|].
  split; [apply parseRowToPrimaryKey_returns; simpl;
          now apply resolve_ordinary|].
  cbn [fields_of].
  rewrite key_of_fields_keys, filter_id_iff, forallb_map. simpl.
  assert (E : forallb (fun x => hasOwnProperty (own o) (name x) || false)
                (primaryKeys this)
              = forallb (fun item => hasOwnProperty (own o) (name item))
                  (primaryKeys this)).
  { induction (primaryKeys this) as [|i l IH]; simpl; [reflexivity|].
    now rewrite IH, orb_false_r. }
  rewrite E. reflexivity.
Qed.

(** ** Rows built from a response *)

Lemma parseDataToRow_assign (pk attrs : list (string * value)) :
  parseDataToRow (Data.mkRow (Some pk) (Some attrs))
  = forEach (pk ++ attrs) assign1 (literal []).
Proof. unfold parseDataToRow, forEach. simpl. now rewrite fold_left_app. Qed.

(** X4.  In the row that [__parseDataToRow] builds, under every name but
    [__proto__], an attribute shadows a primary-key entry of the same name,
    and among entries of one name the last one counts.  When the names of
    the response are distinct and none is [__proto__], the row inherits from
    [Object.prototype] and holds exactly the entries of the response.  A
    response without arrays gives the empty object. *)
Theorem parseDataToRow_lookup (pk attrs : list (string * value)) (k : string) :
  (k <> "__proto__" ->
   obj_get (own (parseDataToRow (Data.mkRow (Some pk) (Some attrs)))) k
   = match last_assigned attrs k with
     | Some v => Some v
     | None => last_assigned pk k
     end)
  /\ (NoDup (map fst (pk ++ attrs)) ->
      ~ In "__proto__" (map fst (pk ++ attrs)) ->
      proto (parseDataToRow (Data.mkRow (Some pk) (Some attrs)))
      = ObjectPrototype
      /\ obj_get (own (parseDataToRow (Data.mkRow (Some pk) (Some attrs)))) k
         = obj_get (pk ++ attrs) k)
  /\ parseDataToRow (Data.mkRow None None) = literal [].
Proof.
  rewrite parseDataToRow_assign.
  split; [|split; [|reflexivity]].
  - intros Hk. rewrite obj_get_assign_each by assumption.
    rewrite last_assigned_app. simpl.
    destruct (last_assigned attrs k); [reflexivity|].
    now destruct (last_assigned pk k).
  - intros Hnd Hn.
    destruct (assign_each_plain (pk ++ attrs) (literal []) Hn) as [Hp Hg].
    split; [exact Hp|].
    destruct (String.eqb k "__proto__") eqn:E.
    + apply String.eqb_eq in E. subst k. rewrite Hg. simpl.
      rewrite <- (last_assigned_NoDup (pk ++ attrs)) by assumption.
      now rewrite last_assigned_not_in.
    + rewrite obj_get_assign_each by (intros ->; discriminate).
      rewrite last_assigned_NoDup by assumption.
      now destruct (obj_get (pk ++ attrs) k).
Qed.

(** ** Components that the row holds *)

(** X19.  A component that an ordinary row holds is emitted from the row,
    whatever the fallback: with the value itself (be it [undefined] or
    [null]) when its descriptor is not integer typed, and never with the
    fallback in its place. *)
Theorem parseRowToPrimaryKey_present_component (this : Table) (o : jsobject)
    (defaultValue : value) (item : PrimaryKeyDescriptor) (v : value) :
  ordinary o ->
  In item (primaryKeys this) ->
  obj_get (own o) (name item) = Some v ->
  exists key,
    parseRowToPrimaryKey this (Ref o) defaultValue = Returns key
    /\ In (name item, key_encoding (type item) v) key
    /\ (is_Long (type item) = false -> In (name item, v) key)
    /\ (forall w,
          In (name item, w) key ->
          w = v \/ w = Long_fromNumber (parseInt v)).
Proof.
  intros Hord Hin Hget. eexists. split.
  { apply parseRowToPrimaryKey_returns. simpl. now apply resolve_ordinary. }
  cbn [fields_of].
  assert (H : In (name item, key_encoding (type item) v)
                (key_of_fields this (own o) defaultValue)).
  { apply key_of_fields_In. exists item. split; [assumption|].
    unfold key_entry. rewrite Hget. now left. }
  split; [exact H|]. split.
  - intros Hty. unfold key_encoding in H. now rewrite Hty in H.
  - intros w Hw. apply key_of_fields_In in Hw.
    destruct Hw as (item' & _ & Hw). unfold key_entry in Hw.
    destruct (obj_get (own o) (name item')) as [v'|] eqn:E.
    + destruct Hw as [Hw|[]]. inversion Hw as [[Hn Hv]].
      rewrite Hn, Hget in E. inversion E; subst v'.
      destruct (is_Long (type item')); [now right | now left].
    + destruct (is_undefined defaultValue); [destruct Hw|].
      destruct Hw as [Hw|[]]. inversion Hw as [[Hn Hv]].
      rewrite Hn, Hget in E. discriminate.
Qed.

(** ** Batch operations *)

Lemma batchWrite_calls (this : Table) (obj : opMap) (be : backend)
    (s : state be) :
  ordinary_rows obj ->
  calls (batchWrite this obj) be s
  = Some [Logged
            (Store.batchWriteRow
               {| Store.BatchParams.tableName := tableName this;
                  Store.BatchParams.rows := flat_map (entry_items this) obj |})].
Proof.
  intros Hord. unfold batchWrite.
  rewrite batch_list_by_entries by assumption.
  cbn [calls then_ run]. f_equal.
  destruct (handle be _ _ s) as [[data|e] s']; [|reflexivity].
  destruct (table_results _ _); [reflexivity|].
  destruct (flat_map (entry_items this) obj); reflexivity.
Qed.

Lemma batch_of_one_entry (this : Table) (label : string)
    (rows : list (arg jsobject)) (be : backend) (s : state be) :
  (forall row, In row rows -> ordinary_arg row) ->
  calls (batchWrite this [(label, Ref rows)]) be s
  = Some [Logged
            (Store.batchWriteRow
               {| Store.BatchParams.tableName := tableName this;
                  Store.BatchParams.rows :=
                    match kind_of_op (toLocaleUpperCase label) with
                    | Some kind =>
                        map (fun row => batch_item this kind (fields_of row))
                          rows
                    | None => []
                    end |})].
Proof.
  intros Hord. rewrite batchWrite_calls.
  - unfold entry_items. simpl. now rewrite app_nil_r.
  - intros key rs row [E|[]] _ Hin. inversion E; subst. now apply Hord.
Qed.

(** X7.  On a non-empty array of rows that are falsy or ordinary objects,
    [batchPut], [batchInsert], [batchUpdate] and [batchDelete] send one
    batch with exactly one item per row, in the order of the rows (the put
    item, the insert item, the update item or the delete item of that row),
    provided that [toLocaleUpperCase] turns the label of the operation into
    its upper-case word.  Where it turns [insert] into a word that is none
    of the four, as a Turkish locale does, [batchInsert] sends an empty
    batch. *)
Theorem batch_operations_send_one_item_per_row (this : Table)
    (rows : list (arg jsobject)) (be : backend) (s : state be) :
  rows <> [] ->
  (forall row, In row rows -> ordinary_arg row) ->
  let sent (items : list Params.t) :=
    Some [Logged
            (Store.batchWriteRow
               {| Store.BatchParams.tableName := tableName this;
                  Store.BatchParams.rows := items |})] in
  let items (kind : OpKind) :=
    map (fun row => batch_item this kind (fields_of row)) rows in
  (toLocaleUpperCase "put" = "PUT" ->
   calls (batchPut this (Ref rows)) be s = sent (items OpPut))
  /\ (toLocaleUpperCase "insert" = "INSERT" ->
      calls (batchInsert this (Ref rows)) be s = sent (items OpInsert))
  /\ (toLocaleUpperCase "update" = "UPDATE" ->
      calls (batchUpdate this (Ref rows)) be s = sent (items OpUpdate))
  /\ (toLocaleUpperCase "delete" = "DELETE" ->
      calls (batchDelete this (Ref rows)) be s = sent (items OpDelete))
  /\ (kind_of_op (toLocaleUpperCase "insert") = None ->
      calls (batchInsert this (Ref rows)) be s = sent []).
Proof.
  intros Hrows Hord sent items.
  assert (Hguard : no_rows (Ref rows) = false).
  { unfold no_rows. simpl. destruct rows; [contradiction | reflexivity]. }
  subst sent items. cbn beta.
  unfold batchPut, batchInsert, batchUpdate, batchDelete.
  fold (no_rows (Ref rows)). rewrite Hguard.
  rewrite !batch_of_one_entry by assumption.
  split; [|split; [|split; [|split]]]; intros E; now rewrite E.
Qed.

End Builtins.

(** ** On examples *)

(** [select] on rationals, the backend that holds the twelve users, and
    [getRange] on the table of users. *)
Local Abbreviation select_Q :=
  (select parseInt Long_fromNumber Q 1%Q 10%Q Fixture.le_zero Fixture.is_one
     Fixture.offset).
Local Abbreviation store := (store_of_rows Fixture.by_rank Fixture.twelve).
Local Abbreviation getRange_users fuel startRow endRow :=
  (getRange parseInt Long_fromNumber fuel Example.users startRow endRow None).

Lemma by_rank_order : strict_weak_order Fixture.by_rank.
Proof.
  unfold strict_weak_order, Fixture.by_rank. split; [|split].
  - intros a. apply Z.ltb_irrefl.
  - intros a b c. rewrite !Z.ltb_lt. lia.
  - intros a b c. rewrite !Z.ltb_lt. lia.
Qed.

Lemma twelve_in_key_order : in_key_order Fixture.by_rank Fixture.twelve.
Proof.
  unfold in_key_order, Fixture.twelve. simpl.
  repeat (constructor; [|repeat (constructor; [reflexivity|]); constructor]).
  constructor.
Qed.

Lemma twelve_keys (r : Data.row) :
  In r Fixture.twelve ->
  key_of_schema parseInt Long_fromNumber Example.users (key_of r).
Proof.
  unfold Fixture.twelve. simpl. intros H.
  repeat (destruct H as [<-|H];
          [split; [reflexivity|];
           intros item v [<-|[<-|[]]] [E|[E|[]]]; inversion E; reflexivity|]).
  destruct H.
Qed.

Lemma users_plain_schema : plain_schema Example.users.
Proof.
  unfold plain_schema. simpl. split; [|split].
  - repeat constructor; simpl; intuition discriminate.
  - intuition discriminate.
  - intuition discriminate.
Qed.

Lemma store_serves : serves Fixture.by_rank Fixture.twelve store.
Proof. intros params s. exists s. reflexivity. Qed.

Lemma literal_ordinary (fields : object) :
  hasOwnProperty fields "hasOwnProperty" = false -> ordinary (literal fields).
Proof. intros H. split; [reflexivity | exact H]. Qed.





Lemma parseRowToPrimaryKey_long_component_witness :
  exists key,
    parseRowToPrimaryKey parseInt Long_fromNumber Example.users
      (Ref (literal [("id", VStr "42"); ("name", VStr "bob")])) VUndefined
    = Returns key
    /\ In ("id", Long_fromNumber (parseInt (VStr "42"))) key
    /\ (parseInt (VStr "42") = NaN -> In ("id", Long_fromNumber NaN) key).
Proof.
  apply (parseRowToPrimaryKey_long_component parseInt Long_fromNumber
           Example.users (literal [("id", VStr "42"); ("name", VStr "bob")])
           VUndefined (mkKey "id" TLong) (VStr "42")).
  - now apply literal_ordinary.
  - simpl. now left.
  - reflexivity.
  - reflexivity.
Defined.

(** C5, as stated, fails: a word as integer-typed [id] raises no failure;
    the key is returned with [Store.Long.fromNumber(NaN)] as [id]. *)
Lemma non_numeric_long_key_is_emitted :
  parseInt (VStr "abc") = NaN
  /\ parseRowToPrimaryKey parseInt Long_fromNumber Example.users
       (Ref (literal [("id", VStr "abc"); ("name", VStr "bob")])) VUndefined
     = Returns [("id", Long_fromNumber NaN); ("name", VStr "bob")].
Proof. split; reflexivity. Qed.

Lemma write_without_key_component_reaches_backend_witness :
  let o := literal [("name", VStr "bob")] in
  exists p,
    put parseInt Long_fromNumber Example.users (Ref o) = Some (Returns p)
    /\ run (Example.scripted []) p []
       = after_call (Example.scripted []) []
           (Store.putRow
              (put_request parseInt Long_fromNumber Example.users IGNORE (own o)))
           (fun _ => Ref o).
Proof.
  intros o.
  apply (proj1 (proj2
           (write_without_key_component_reaches_backend parseInt
              Long_fromNumber Example.users o (mkKey "id" TLong)
              (Example.scripted []) []
              ltac:(split; reflexivity) (or_introl eq_refl) eq_refl))).
Defined.

(** C6, as stated, fails: [put] of a row without its [id] component is not
    rejected; the backend is called with the partial key and the promise
    resolves. *)
Lemma put_without_key_component_is_not_rejected :
  let o := literal [("name", VStr "bob")] in
  validateRow Example.users (Ref o) = Returns false
  /\ exists p,
       put parseInt Long_fromNumber Example.users (Ref o) = Some (Returns p)
       /\ run (Example.scripted []) p []
          = (Resolved (Ref o),
             [Logged
                (Store.putRow
                   {| Params.tableName := Some "users";
                      Params.condition := mkCondition IGNORE;
                      Params.primaryKey := [("name", VStr "bob")];
                      Params.updateOfAttributeColumns := None;
                      Params.attributeColumns := Some [];
                      Params.returnContent := Some Primarykey;
                      Params.type := None |})],
             []).
Proof. intros o. split; [reflexivity|]. eexists. split; reflexivity. Qed.

Lemma put_params_roundtrip_witness :
  let o :=
    literal [("age", VNum (Int 30)); ("id", VNum (Int 7)); ("name", VStr "bob")] in
  exists params,
    buildPutRowParams parseInt Long_fromNumber Example.users (Ref o) None
    = Some (Returns params)
    /\ obj_get (own (parseParamsToRow params)) "age"
       = option_map (stored parseInt Long_fromNumber Example.users "age")
           (obj_get (own o) "age").
Proof.
  intros o.
  destruct (put_params_roundtrip parseInt Long_fromNumber Example.users o
              ltac:(split; reflexivity)
              ltac:(repeat constructor; simpl; intuition discriminate)
              eq_refl)
    as (params & Hparams & Hget & _).
  exists params. split; [exact Hparams|].
  apply Hget. discriminate.
Defined.

(** C4, as stated, fails.  The [id] of a row of a table whose [id] is
    integer typed comes back as a Long, not as the number it was; and a
    field named [__proto__] does not come back at all. *)
Lemma roundtrip_changes_long_key :
  let o :=
    literal [("age", VNum (Int 30)); ("id", VNum (Int 7)); ("name", VStr "bob")] in
  let o' :=
    literal [("__proto__", VNum (Int 1)); ("id", VNum (Int 7));
             ("name", VStr "bob")] in
  validateRow Example.users (Ref o) = Returns true
  /\ validateRow Example.users (Ref o') = Returns true
  /\ (exists params,
        buildPutRowParams parseInt Long_fromNumber Example.users (Ref o) None
        = Some (Returns params)
        /\ parseParamsToRow params
           = literal [("id", VLong (Int 7)); ("name", VStr "bob");
                      ("age", VNum (Int 30))]
        /\ obj_get (own (parseParamsToRow params)) "id" <> obj_get (own o) "id")
  /\ (exists params,
        buildPutRowParams parseInt Long_fromNumber Example.users (Ref o') None
        = Some (Returns params)
        /\ parseParamsToRow params
           = literal [("id", VLong (Int 7)); ("name", VStr "bob")]
        /\ obj_get (own o') "__proto__" = Some (VNum (Int 1))).
Proof.
  intros o o'. split; [reflexivity|]. split; [reflexivity|]. split.
  - eexists. split; [reflexivity|]. split; [reflexivity|]. discriminate.
  - eexists. split; [reflexivity|]. split; reflexivity.
Qed.








Lemma batch_operations_send_one_item_per_row_witness :
  calls
    (batchDelete parseInt Long_fromNumber upper_ascii Example.users
       (Ref [Ref (literal [("id", VNum (Int 1))])]))
    (Example.scripted []) []
  = Some [Logged
            (Store.batchWriteRow
               {| Store.BatchParams.tableName := "users";
                  Store.BatchParams.rows :=
                    map
                      (fun row =>
                         batch_item parseInt Long_fromNumber Example.users
                           OpDelete (fields_of row))
                      [Ref (literal [("id", VNum (Int 1))])] |})].
Proof.
  apply (proj1 (proj2 (proj2 (proj2
           (batch_operations_send_one_item_per_row parseInt Long_fromNumber
              upper_ascii Example.users [Ref (literal [("id", VNum (Int 1))])]
              (Example.scripted []) []
              ltac:(discriminate)
              ltac:(intros row [<-|[]]; split; reflexivity)))))).
  reflexivity.
Defined.

Lemma validateRow_iff_complete_key_witness :
  exists valid key,
    validateRow Example.users (Ref (literal [("id", VNum (Int 7))]))
    = Returns valid
    /\ parseRowToPrimaryKey parseInt Long_fromNumber Example.users
         (Ref (literal [("id", VNum (Int 7))])) VUndefined
       = Returns key
    /\ (valid = true <-> map fst key = map name (primaryKeys Example.users)).
Proof.
  apply (validateRow_iff_complete_key parseInt Long_fromNumber Example.users
           (literal [("id", VNum (Int 7))]) ltac:(split; reflexivity)).
Defined.

Lemma parseDataToRow_lookup_witness :
  let data :=
    Data.mkRow (Some [("id", VLong (Int 1))]) (Some [("age", VNum (Int 31))]) in
  proto (parseDataToRow data) = ObjectPrototype
  /\ obj_get (own (parseDataToRow data)) "age"
     = obj_get ([("id", VLong (Int 1))] ++ [("age", VNum (Int 31))]) "age".
Proof.
  intros data.
  apply (proj1 (proj2 (parseDataToRow_lookup [("id", VLong (Int 1))]
                         [("age", VNum (Int 31))] "age"))).
  - repeat constructor; simpl; intuition discriminate.
  - simpl. intuition discriminate.
Defined.

Lemma parseRowToPrimaryKey_present_component_witness :
  exists key,
    parseRowToPrimaryKey parseInt Long_fromNumber Example.users
      (Ref (literal [("name", VNull)])) VInfMin
    = Returns key
    /\ In ("name", VNull) key.
Proof.
  destruct (parseRowToPrimaryKey_present_component parseInt Long_fromNumber
              Example.users (literal [("name", VNull)]) VInfMin
              (mkKey "name" (TOther "STRING")) VNull
              ltac:(split; reflexivity) ltac:(simpl; tauto) eq_refl)
    as (key & Hkey & _ & Hin & _).
  exists key. split; [exact Hkey|]. now apply Hin.
Defined.

End Strict.
